(** * The command line interface of ibp_neurips19 (src/ibp_neurips19/cli.py)

    A shallow embedding of [cli.py]: the three click commands [basic],
    [experiment] and [pgd], the experiment grids they enumerate, the
    checkpoint handling of [pgd], and the declarations of the command
    surface.  The modules [models], [attacks] and [train] and the [torch]
    calls are collaborators of [cli.py]; they enter through the record
    [env], together with what the operating system answers about paths, and
    every call to them is logged in the trace of the world. *)

From Stdlib Require Import Floats ZArith Ascii.
From stdpp Require Import gmap strings list fin_maps pretty.
Set Warnings "-inexact-float,-register-all".

(** * Python values *)

Module Py.

(** ** Floats and their [repr] *)

(** [float(z)] for an integer [z]. *)
Definition float_of_Z (z : Z) : float :=
  SF2Prim (binary_normalize prec emax z 0 false).

Definition pow10 (k : Z) : Z := (10 ^ Z.max k 0)%Z.
Definition pow2 (k : Z) : Z := (2 ^ Z.max k 0)%Z.

(** Compares [a * 10^q] with [b * 2^p], exactly. *)
Definition cmp_scaled (a q b p : Z) : comparison :=
  ((a * pow10 q * pow2 (- p)) ?= (b * pow2 p * pow10 (- q)))%Z.

Fixpoint bump_decpt (fuel : nat) (m e k : Z) : Z :=
  match fuel with
  | O => k
  | S fuel' =>
      match cmp_scaled 1 k m e with
      | Gt => k
      | _ => bump_decpt fuel' m e (k + 1)%Z
      end
  end.

(** The least [k] with [m * 2^e < 10^k]: the position of the decimal point. *)
Definition decpt_of (m e : Z) : Z :=
  bump_decpt 4 m e ((Z.log2 m + e) * 30103 / 100000 - 1)%Z.

(** Does the decimal [D * 10^q] read back as the double [m * 2^e]?  The
    bounds are the midpoints to the neighbouring doubles, included when the
    mantissa is even. *)
Definition round_trips (m e D q : Z) : bool :=
  let lo := (if (m =? 2 ^ 52) && (-1074 <? e) then 4 * m - 1 else 4 * m - 2)%Z in
  let hi := (4 * m + 2)%Z in
  match cmp_scaled D q lo (e - 2), cmp_scaled D q hi (e - 2) with
  | Gt, Lt => true
  | Eq, Lt | Gt, Eq => Z.even m
  | _, _ => false
  end.

(** The decimal mantissa of [n] digits that reads back as [m * 2^e], if
    there is one: of the two decimals of [n] digits next to the value, the
    one that reads back; the nearer one when both do, and the even one when
    they are as near. *)
Definition digits_at (m e k n : Z) : option Z :=
  let num := (m * pow2 e * pow10 (n - k))%Z in
  let den := (pow2 (- e) * pow10 (k - n))%Z in
  let down := (num / den)%Z in
  let up := (down + 1)%Z in
  match round_trips m e down (k - n), round_trips m e up (k - n) with
  | true, true =>
      match (2 * (num - down * den) ?= den)%Z with
      | Lt => Some down
      | Gt => Some up
      | Eq => Some (if Z.even down then down else up)
      end
  | true, false => Some down
  | false, true => Some up
  | false, false => None
  end.

(** The shortest decimal mantissa (1 to 17 digits) that reads back. *)
Fixpoint shortest_digits (fuel : nat) (m e k n : Z) : Z * Z :=
  match digits_at m e k n, fuel with
  | Some D, _ => (D, n)
  | None, S fuel' => shortest_digits fuel' m e k (n + 1)%Z
  | None, O =>
      ((m * pow2 e * pow10 (n - k)) / (pow2 (- e) * pow10 (k - n)), n)%Z
  end.

Fixpoint strip_zeros (fuel : nat) (D : Z) : Z :=
  match fuel with
  | O => D
  | S fuel' =>
      if ((D mod 10 =? 0) && (0 <? D))%Z then strip_zeros fuel' (D / 10)%Z
      else D
  end.

Definition zeros (n : Z) : string :=
  String.concat "" (replicate (Z.to_nat n) "0").
Definition take_str (n : Z) (s : string) : string :=
  String.substring 0 (Z.to_nat n) s.
Definition drop_str (n : Z) (s : string) : string :=
  String.substring (Z.to_nat n) (String.length s - Z.to_nat n) s.

(** Python's layout of the digits: exponent form when the decimal point
    lies at or before -4 or after 16, fixed form otherwise. *)
Definition repr_finite (m e : Z) : string :=
  let k := decpt_of m e in
  let '(D, n) := shortest_digits 16 m e k 1 in
  let s := pretty (strip_zeros 17 D) in
  let decpt := (k + (Z.of_nat (String.length (pretty D)) - n))%Z in
  let L := Z.of_nat (String.length s) in
  if ((decpt <=? -4) || (16 <? decpt))%Z then
    let x := (decpt - 1)%Z in
    take_str 1 s +:+ (if (1 <? L)%Z then "." +:+ drop_str 1 s else "")
      +:+ "e" +:+ (if (x <? 0)%Z then "-" else "+")
      +:+ (if (Z.abs x <? 10)%Z then "0" else "") +:+ pretty (Z.abs x)
  else if (decpt <=? 0)%Z then "0." +:+ zeros (- decpt) +:+ s
  else if (decpt <? L)%Z then take_str decpt s +:+ "." +:+ drop_str decpt s
  else s +:+ zeros (decpt - L) +:+ ".0".

(** [repr(f)], which is also [str(f)] and what an f-string prints. *)
Definition float_repr (f : float) : string :=
  match Prim2SF f with
  | S754_nan => "nan"
  | S754_infinity s => if s then "-inf" else "inf"
  | S754_zero s => if s then "-0.0" else "0.0"
  | S754_finite s m e => (if s then "-" else "") +:+ repr_finite (Z.pos m) e
  end.

(** ** Numbers: the grids of [cli.py] mix the int [0] with floats *)

Inductive number :=
| Int (z : Z)
| Float (f : float).

(** [a == b] on numbers (an int is compared through its float, which is
    exact below 2^53). *)
Definition number_eqb (a b : number) : bool :=
  match a, b with
  | Int x, Int y => (x =? y)%Z
  | Int x, Float g => PrimFloat.eqb (float_of_Z x) g
  | Float f, Int y => PrimFloat.eqb f (float_of_Z y)
  | Float f, Float g => PrimFloat.eqb f g
  end.

Definition number_str (a : number) : string :=
  match a with
  | Int z => pretty z
  | Float f => float_repr f
  end.

(** ** Strings *)

Definition ascii_lower (c : ascii) : ascii :=
  let n := nat_of_ascii c in
  if (65 <=? n)%nat && (n <=? 90)%nat then ascii_of_nat (n + 32) else c.

(** [s.lower()] on ASCII text. *)
Fixpoint lower (s : string) : string :=
  match s with
  | EmptyString => EmptyString
  | String c s' => String (ascii_lower c) (lower s')
  end.

(** ** Values: what a checkpoint file can hold

    Plain data: None, bool, int, float, str, list and dict with string keys;
    a tensor is the list of its entries, a state dict a dict of tensors. *)

Inductive pyval :=
| VNone
| VBool (b : bool)
| VInt (z : Z)
| VFloat (f : float)
| VStr (s : string)
| VList (l : list pyval)
| VDict (d : gmap string pyval).

Definition number_val (a : number) : pyval :=
  match a with
  | Int z => VInt z
  | Float f => VFloat f
  end.

(** ** Exceptions *)

Inductive usage_error :=
| NoSuchOption (name : string)
| BadOptionUsage (name : string)
| BadParameter (param : string).

Inductive exn :=
| KeyError (key : string)
| TypeError (what : string)
| AttributeError (what : string)
| FileNotFoundError (path : string)
| UnpicklingError
| UsageError (e : usage_error)
| SystemExit (code : Z)
| Raised (what : string).

Inductive result (A : Type) :=
| Ok (a : A)
| Raise (e : exn).
Arguments Ok {A} a.
Arguments Raise {A} e.

(** [v[k]] for a string key. *)
Definition getitem (v : pyval) (k : string) : result pyval :=
  match v with
  | VDict d =>
      match d !! k with
      | Some x => Ok x
      | None => Raise (KeyError k)
      end
  | VList _ | VStr _ => Raise (TypeError "indices must be integers")
  | _ => Raise (TypeError "object is not subscriptable")
  end.

Definition is_str (k : string) (v : pyval) : bool :=
  match v with
  | VStr s => String.eqb s k
  | _ => false
  end.

(** [k in v] for a string [k]. *)
Definition contains (k : string) (v : pyval) : result bool :=
  match v with
  | VDict d => Ok (bool_decide (is_Some (d !! k)))
  | VList l => Ok (existsb (is_str k) l)
  | VStr s =>
      Ok (match String.index 0 k s with Some _ => true | None => false end)
  | _ => Raise (TypeError "argument is not iterable")
  end.

(** [v[k] = x] for a string key. *)
Definition setitem (v : pyval) (k : string) (x : pyval) : result pyval :=
  match v with
  | VDict d => Ok (VDict (<[k := x]> d))
  | VList _ => Raise (TypeError "list indices must be integers")
  | _ => Raise (TypeError "object does not support item assignment")
  end.

(** [v.append(x)]: the state of [v] after the call. *)
Definition append (v : pyval) (x : pyval) : result pyval :=
  match v with
  | VList l => Ok (VList (l ++ [x]))
  | _ => Raise (AttributeError "append")
  end.

Definition and_then {A B} (r : result A) (k : A → result B) : result B :=
  match r with
  | Ok a => k a
  | Raise e => Raise e
  end.

(** ** [itertools.product] and [enumerate] *)

Definition product4 {A B C D} (la : list A) (lb : list B) (lc : list C)
    (ld : list D) : list (A * B * C * D) :=
  a ← la; b ← lb; c ← lc; d ← ld; [(a, b, c, d)].

Definition product5 {A B C D F} (la : list A) (lb : list B) (lc : list C)
    (ld : list D) (lf : list F) : list (A * B * C * D * F) :=
  a ← la; b ← lb; c ← lc; d ← ld; f ← lf; [(a, b, c, d, f)].

Fixpoint enumerate_from {A} (n : nat) (l : list A) : list (nat * A) :=
  match l with
  | [] => []
  | x :: l' => (n, x) :: enumerate_from (S n) l'
  end.

Definition enumerate {A} (l : list A) : list (nat * A) := enumerate_from 0 l.

End Py.
Export Py.

(** * The world: checkpoint files and the trace of calls *)

Inductive file :=
| Pickle (v : pyval)
| Garbage (bytes : string).

(** The arguments [pgd] passes to [compute_robustness], next to the net. *)
Record robustness_args := RobustnessArgs {
  ra_dataset : string;
  ra_device : string;
  ra_attack_name : string;
  ra_restarts : pyval;
  ra_subset : pyval;
  ra_subset_seed : pyval;
  ra_attack_kwargs : gmap string pyval
}.

(** What [compute_robustness] returns, as far as [pgd] reads it. *)
Record results := Results {
  robustness : pyval;
  fooling_rate : pyval;
  sorted_errors : pyval
}.

Inductive event :=
| Stdout (line : string)
| Stdout_help (command : string)
| Call_model (name : string)
| Call_fit_to_dataset (dataset : string)
| Call_torch_load (path : string)
| Call_load_state_dict (state_dict : pyval)
| Call_compute_robustness (args : robustness_args)
| Call_torch_save (v : pyval) (path : string)
| Call_train_classifier (kwargs : gmap string pyval).

Record world := World {
  fs : gmap string file;
  trace : list event
}.

Definition log (ev : event) (w : world) : world :=
  {| fs := fs w; trace := trace w ++ [ev] |}.

(** The collaborators of [cli.py]: [models], [attacks.compute_robustness],
    [train.train_classifier] and [torch.cuda.is_available]. *)
Record env := Env {
  net : Type;
  (** [models.__dict__[name]()]: [None] when the module has no such name. *)
  models_dict : string → option (result net);
  (** the net after [models.fit_to_dataset(net, dataset).eval()] *)
  fit_to_dataset : net → string → result net;
  (** the net after [net.load_state_dict(state_dict)] *)
  load_state_dict : net → pyval → result net;
  compute_robustness : net → robustness_args → result results;
  cuda_is_available : bool;
  (** [train_classifier] on its keyword arguments; it may write files *)
  train_classifier :
    gmap string pyval → gmap string file → result unit * gmap string file;
  (** the paths that exist and that the process may not read, at the moment
      click converts the command line: [os.stat(path)] succeeds and
      [os.access(path, os.R_OK)] is false *)
  unreadable : string → bool;
  (** [torch.save(v, path)] on these files when it fails: the exception,
      and the bytes it has left in the file when it had already opened it
      for writing *)
  torch_save_failure :
    pyval → string → gmap string file → option (exn * option string)
}.

(** ** The state and exception monad of the commands *)

Definition M (A : Type) : Type := world → result A * world.

Definition ret {A} (a : A) : M A := λ w, (Ok a, w).
Definition raise {A} (e : exn) : M A := λ w, (Raise e, w).
Definition bind {A B} (m : M A) (k : A → M B) : M B :=
  λ w, match m w with
       | (Ok a, w') => k a w'
       | (Raise e, w') => (Raise e, w')
       end.

Declare Scope cmd_scope.
Delimit Scope cmd_scope with cmd.
Notation "x <- m ;; k" := (bind m (λ x, k))
  (at level 100, m at next level, right associativity) : cmd_scope.
Notation "m ;;; k" := (bind m (λ _, k))
  (at level 100, right associativity) : cmd_scope.

(** A call to a collaborator: logged, then its outcome. *)
Definition call {A} (ev : event) (r : result A) : M A := λ w, (r, log ev w).

(** [print(...)]: one line on standard output. *)
Definition print (line : string) : M unit := call (Stdout line) (Ok tt).

(** What unpickling the file at [path] gives. *)
Definition load_file (files : gmap string file) (path : string)
    : result pyval :=
  match files !! path with
  | Some (Pickle v) => Ok v
  | Some (Garbage _) => Raise UnpicklingError
  | None => Raise (FileNotFoundError path)
  end.

(** [torch.load(path)] *)
Definition torch_load (path : string) : M pyval :=
  λ w, (load_file (fs w) path, log (Call_torch_load path) w).

(** [torch.save(v, path)]: the file holds [v] afterwards, unless the call
    raises; it then has left the file alone, or has left some bytes in it. *)
Definition torch_save (E : env) (v : pyval) (path : string) : M unit :=
  λ w, let w' := log (Call_torch_save v path) w in
       match torch_save_failure E v path (fs w) with
       | None =>
           (Ok tt, {| fs := <[path := Pickle v]> (fs w); trace := trace w' |})
       | Some (e, None) => (Raise e, w')
       | Some (e, Some bytes) =>
           (Raise e, {| fs := <[path := Garbage bytes]> (fs w);
                        trace := trace w' |})
       end.

(** A [for] loop: the body on each element in turn, until one raises. *)
Fixpoint for_each {A} (l : list A) (body : A → M unit) : M unit :=
  match l with
  | [] => ret tt
  | x :: l' => (body x ;;; for_each l' body)%cmd
  end.

(** * The command surface, as click reads the decorators *)

Module Click.

Inductive param_type :=
| STRING
| Path
| FloatRange (min max : option float)
| IntRange (min max : option Z)
| BoolFlag.

(** One [@click.option]: the names that set it (for a flag, to True), the
    secondary names of a flag (that set it to False), the name of the
    parameter of the callback, its type and its default. *)
Record option_decl := Option_ {
  names : list string;
  off_names : list string;
  dest : string;
  type : param_type;
  default : pyval
}.

(** A command line word with what Python's [int()] and [float()] make of
    it: [RInt z] when [int(text)] is [z], [RFloat f] when only [float(text)]
    succeeds, with [f], [RText] when neither does.  Where [int(text)] is
    [z], [float(text)] is the float of [z], and of the zero that [int()]
    reads the one with the sign of the text. *)
Inductive reading :=
| RInt (z : Z)
| RFloat (f : float)
| RText.

Record word := Word { text : string; read : reading }.

(** The command line after the command name: switches and options with
    their value. *)
Inductive token :=
| Switch (name : string)
| Value (name : string) (w : word).

(** A value before conversion: from the command line or a default. *)
Inductive raw :=
| FromArgv (w : word)
| FromFlag (b : bool)
| FromDefault (v : pyval).

Definition find_option (decls : list option_decl) (name : string)
    : option option_decl :=
  find (λ d, bool_decide (name ∈ names d ++ off_names d)) decls.

Definition is_flag (d : option_decl) : bool :=
  match type d with
  | BoolFlag => true
  | _ => false
  end.

(** One word of the command line: the parameter it sets and the value; a
    name that no option declares is an error.  [--help] is the option click
    adds to every command. *)
Definition parse_token (decls : list option_decl) (tok : token)
    : usage_error + (string * raw) :=
  match tok with
  | Switch name =>
      if String.eqb name "--help" then inr ("help", FromFlag true)
      else match find_option decls name with
           | None => inl (NoSuchOption name)
           | Some d =>
               if is_flag d
               then inr (dest d, FromFlag (bool_decide (name ∈ names d)))
               else inl (BadOptionUsage name)
           end
  | Value name w =>
      match find_option decls name with
      | None => inl (NoSuchOption name)
      | Some d =>
          if is_flag d then inl (BadOptionUsage name)
          else inr (dest d, FromArgv w)
      end
  end.

(** The parser: the words in order, up to the first error. *)
Fixpoint parse_args (decls : list option_decl) (argv : list token)
    : usage_error + list (string * raw) :=
  match argv with
  | [] => inr []
  | tok :: argv' =>
      match parse_token decls tok with
      | inl e => inl e
      | inr kv =>
          match parse_args decls argv' with
          | inl e => inl e
          | inr rest => inr (kv :: rest)
          end
      end
  end.

(** The value given last for a parameter, if any. *)
Fixpoint given (seen : list (string * raw)) (name : string) : option raw :=
  match seen with
  | [] => None
  | (k, r) :: rest =>
      match given rest name with
      | Some r' => Some r'
      | None => if String.eqb k name then Some r else None
      end
  end.

(** Does the text carry a minus sign? *)
Definition minus_sign (s : string) : bool :=
  match String.index 0 "-" s with
  | Some _ => true
  | None => false
  end.

(** [float(value)] *)
Definition to_float (r : raw) : option float :=
  match r with
  | FromArgv w =>
      match read w with
      | RInt z =>
          Some (if (z =? 0)%Z && minus_sign (text w) then neg_zero
                else float_of_Z z)
      | RFloat f => Some f
      | RText => None
      end
  | FromDefault (VInt z) => Some (float_of_Z z)
  | FromDefault (VFloat f) => Some f
  | _ => None
  end.

(** [int(value)] *)
Definition to_int (r : raw) : option Z :=
  match r with
  | FromArgv w =>
      match read w with
      | RInt z => Some z
      | _ => None
      end
  | FromDefault (VInt z) => Some z
  | _ => None
  end.

Definition below_min_f (min : option float) (v : float) : bool :=
  match min with
  | Some m => PrimFloat.ltb v m
  | None => false
  end.
Definition above_max_f (max : option float) (v : float) : bool :=
  match max with
  | Some m => PrimFloat.ltb m v
  | None => false
  end.
Definition below_min_i (min : option Z) (v : Z) : bool :=
  match min with
  | Some m => (v <? m)%Z
  | None => false
  end.
Definition above_max_i (max : option Z) (v : Z) : bool :=
  match max with
  | Some m => (m <? v)%Z
  | None => false
  end.

Section Convert.
Context (E : env).

(** The check of [click.Path(path_type=str)], which keeps the defaults
    [exists=False] and [readable=True]: a path that does not exist passes,
    one that exists must be readable.  No file has the empty name. *)
Definition path_accepted (s : string) : bool :=
  String.eqb s "" || negb (unreadable E s).

(** [type.convert(value)]: the value of the type, or a failure.  A range
    type fails on a value below its minimum or above its maximum, a path
    type on a path that is not accepted. *)
Definition convert (ty : param_type) (r : raw) : option pyval :=
  match ty with
  | STRING =>
      match r with
      | FromArgv w => Some (VStr (text w))
      | FromDefault (VStr s) => Some (VStr s)
      | _ => None
      end
  | Path =>
      match r with
      | FromArgv w =>
          if path_accepted (text w) then Some (VStr (text w)) else None
      | FromDefault (VStr s) =>
          if path_accepted s then Some (VStr s) else None
      | _ => None
      end
  | FloatRange min max =>
      match to_float r with
      | Some v =>
          if below_min_f min v || above_max_f max v then None
          else Some (VFloat v)
      | None => None
      end
  | IntRange min max =>
      match to_int r with
      | Some v =>
          if below_min_i min v || above_max_i max v then None
          else Some (VInt v)
      | None => None
      end
  | BoolFlag =>
      match r with
      | FromFlag b | FromDefault (VBool b) => Some (VBool b)
      | _ => None
      end
  end.

(** The value of one parameter: the one given, else the default; a default
    of None stays None. *)
Definition param_value (d : option_decl) (seen : list (string * raw))
    : usage_error + pyval :=
  match given seen (dest d), default d with
  | None, VNone => inr VNone
  | g, dflt =>
      match convert (type d) (from_option id (FromDefault dflt) g) with
      | Some v => inr v
      | None => inl (BadParameter (dest d))
      end
  end.

(** Parameters are processed in the order they were given on the command
    line, then the others in the order of their declaration. *)
Definition processing_order (decls : list option_decl)
    (seen : list (string * raw)) : list option_decl :=
  let first := reverse (remove_dups (reverse (fst <$> seen))) in
  omap (λ n, find (λ d, String.eqb (dest d) n) decls) first
  ++ filter (λ d, dest d ∉ first) decls.

Fixpoint convert_all (ds : list option_decl) (seen : list (string * raw))
    (kwargs : gmap string pyval) : usage_error + gmap string pyval :=
  match ds with
  | [] => inr kwargs
  | d :: ds' =>
      match param_value d seen with
      | inl e => inl e
      | inr v => convert_all ds' seen (<[dest d := v]> kwargs)
      end
  end.

Inductive parsed :=
| Help
| Kwargs (kwargs : gmap string pyval).

(** From the command line to the keyword arguments of the callback. *)
Definition make_kwargs (decls : list option_decl) (argv : list token)
    : usage_error + parsed :=
  match parse_args decls argv with
  | inl e => inl e
  | inr seen =>
      match given seen "help" with
      | Some _ => inr Help
      | None =>
          match convert_all (processing_order decls seen) seen ∅ with
          | inl e => inl e
          | inr kwargs => inr (Kwargs kwargs)
          end
      end
  end.

End Convert.

(** [defaults] of the parameters, as [ctx.invoke] fills them in for the
    parameters the caller leaves out ([basic_defaults_convert] below: for
    the parameters that [experiment] leaves out, converting the default
    gives the default back). *)
Definition defaults (decls : list option_decl) : gmap string pyval :=
  list_to_map ((λ d, (dest d, default d)) <$> decls).

(** ** What a command line says, read off its words *)

Definition token_name (tok : token) : string :=
  match tok with
  | Switch name | Value name _ => name
  end.

(** The word written last for an option with one of these names. *)
Fixpoint last_value (option_names : list string) (argv : list token)
    : option word :=
  match argv with
  | [] => None
  | tok :: argv' =>
      match last_value option_names argv', tok with
      | Some w, _ => Some w
      | None, Value name w =>
          if bool_decide (name ∈ option_names) then Some w else None
      | None, Switch _ => None
      end
  end.

(** The switch written last among these names. *)
Fixpoint last_switch (switch_names : list string) (argv : list token)
    : option string :=
  match argv with
  | [] => None
  | tok :: argv' =>
      match last_switch switch_names argv', tok with
      | Some n, _ => Some n
      | None, Switch name =>
          if bool_decide (name ∈ switch_names) then Some name else None
      | None, Value _ _ => None
      end
  end.

End Click.
Import Click.

(** A command run from the shell: a usage error or [--help] ends it before
    the callback is called. *)
Definition run_command (E : env) (name : string) (decls : list option_decl)
    (callback : gmap string pyval → M unit) (argv : list token) : M unit :=
  match make_kwargs E decls argv with
  | inl e => raise (UsageError e)
  | inr Help => (call (Stdout_help name) (Ok tt) ;;; raise (SystemExit 0))%cmd
  | inr (Kwargs kwargs) => callback kwargs
  end.

(** * cli.py *)

Definition lift {A} (r : result A) : M A := λ w, (r, w).

(** [index is not None and i != index] *)
Definition skipped (index : option Z) (i : nat) : bool :=
  match index with
  | Some z => negb (Z.of_nat i =? z)%Z
  | None => false
  end.

Definition kw_bool (kwargs : gmap string pyval) (name : string) : bool :=
  match kwargs !! name with
  | Some (VBool b) => b
  | _ => false
  end.

Definition kw_int (kwargs : gmap string pyval) (name : string) : option Z :=
  match kwargs !! name with
  | Some (VInt z) => Some z
  | _ => None
  end.

(** ** [basic] *)

(** The options of [basic], in the order of the decorators.  The name of a
    parameter is the one given, else the long option name. *)
Definition opt_evaluate_only : option_decl :=
  Option_ ["-v"; "--validate"] ["-t"; "--train"] "evaluate_only"
    BoolFlag (VBool true).
Definition opt_dataset : option_decl :=
  Option_ ["--dataset"; "-d"] [] "dataset" STRING (VStr "MNIST").
Definition opt_model : option_decl :=
  Option_ ["--model"; "-m"] [] "model" STRING (VStr "small_cnn").
Definition opt_pretrained : option_decl :=
  Option_ ["-p"; "--pretrained"] ["-s"; "--scratch"] "pretrained"
    BoolFlag (VBool false).
Definition opt_learning_rate : option_decl :=
  Option_ ["--learning-rate"; "-lr"] [] "learning_rate"
    (FloatRange (Some 0%float) None) (VFloat 1e-1).
Definition opt_momentum : option_decl :=
  Option_ ["--momentum"; "-mm"] [] "momentum"
    (FloatRange (Some 0%float) None) (VFloat 0.9).
Definition opt_weight_decay : option_decl :=
  Option_ ["--weight-decay"; "-w"] [] "weight_decay"
    (FloatRange (Some 0%float) None) (VFloat 1e-4).
Definition opt_epochs : option_decl :=
  Option_ ["--number-of-epochs"; "-n"] [] "epochs"
    (IntRange (Some 0%Z) None) (VInt 90).
Definition opt_batch_size : option_decl :=
  Option_ ["--batch-size"; "-b"] [] "batch_size"
    (IntRange (Some 0%Z) None) (VInt 256).
Definition opt_jobs : option_decl :=
  Option_ ["--jobs"; "-j"] [] "jobs" (IntRange (Some 0%Z) None) (VInt 4).
Definition opt_checkpoint : option_decl :=
  Option_ ["--checkpoint"; "-c"] [] "checkpoint" Path (VStr "checkpoint.pth").
Definition opt_resume : option_decl :=
  Option_ ["--resume"; "-r"] [] "resume" Path (VStr "").
Definition opt_log_dir : option_decl :=
  Option_ ["--log-dir"; "-l"] [] "log_dir" Path (VStr "logs").
Definition opt_seed : option_decl :=
  Option_ ["--seed"; "-sd"] [] "seed" (IntRange None None) VNone.
Definition opt_epsilon : option_decl :=
  Option_ ["--epsilon"; "-e"] [] "epsilon" (FloatRange None None) (VInt 0).

Definition basic_params : list option_decl :=
  [ opt_evaluate_only; opt_dataset; opt_model; opt_pretrained;
    opt_learning_rate; opt_momentum; opt_weight_decay; opt_epochs;
    opt_batch_size; opt_jobs; opt_checkpoint; opt_resume; opt_log_dir;
    opt_seed; opt_epsilon ].

(** The switches of the flag that sets [evaluate_only]. *)
Definition mode_switches : list string :=
  ["-v"; "--validate"; "-t"; "--train"].

Section Basic.
Context (E : env).

(** [basic]: passes its keyword arguments on to [train_classifier]. *)
Definition basic (kwargs : gmap string pyval) : M unit :=
  λ w, let '(r, fs') := train_classifier E kwargs (fs w) in
       (r, {| fs := fs';
              trace := trace w ++ [Call_train_classifier kwargs] |}).

(** [ibp basic ...] *)
Definition main_basic (argv : list token) : M unit :=
  run_command E "basic" basic_params basic argv.

(** [ctx.invoke(basic, ...)]: the parameters left out get their default. *)
Definition invoke_basic (kwargs : gmap string pyval) : M unit :=
  basic (kwargs ∪ defaults basic_params).

End Basic.

(** ** [experiment] *)

(** The two options that [experiment] and [pgd] both declare. *)
Definition opt_run : option_decl :=
  Option_ ["-r"; "--run"] ["-s"; "--show"] "run" BoolFlag (VBool false).
Definition opt_index : option_decl :=
  Option_ ["--index"; "-i"] [] "index" (IntRange (Some 0%Z) None) VNone.

(** The switches of the flag that sets [run]. *)
Definition run_switches : list string := ["-r"; "--run"; "-s"; "--show"].

Module Experiment.

Definition params : list option_decl := [opt_run; opt_index].

Definition datasets : list string := ["MNIST"; "CIFAR10"; "SVHN"; "CIFAR100"].
Definition epsilons : list float :=
  [0.001; 0.01; 0.03; 0.1; 0.2; 0.3; 0.4]%float.
Definition learning_rates : list float := [1e-1; 1e-2; 1e-3]%float.
Definition models : list string := ["small_cnn"; "medium_cnn"; "large_cnn"].

Definition config : Type := string * float * float * string.

Definition grid : list config :=
  product4 datasets epsilons learning_rates models.

Definition directory (c : config) : string :=
  let '(dataset, epsilon, learning_rate, model) := c in
  dataset +:+ "-" +:+ model +:+ "-" +:+ float_repr epsilon
    +:+ "/" +:+ float_repr learning_rate.

Definition command (c : config) : string :=
  let '(dataset, epsilon, learning_rate, model) := c in
  "ibp basic --train -d " +:+ dataset +:+ " -m " +:+ model
    +:+ " -e " +:+ float_repr epsilon
    +:+ " -lr " +:+ float_repr learning_rate +:+ " -l " +:+ directory c
    +:+ " -c " +:+ directory c +:+ "/checkpoint.pth".

(** The keyword arguments of [ctx.invoke(basic, ...)]. *)
Definition invocation (c : config) : gmap string pyval :=
  let '(dataset, epsilon, learning_rate, model) := c in
  list_to_map
    [ ("evaluate_only", VBool false);
      ("dataset", VStr dataset);
      ("model", VStr model);
      ("epsilon", VFloat epsilon);
      ("learning_rate", VFloat learning_rate);
      ("log_dir", VStr (directory c));
      ("checkpoint", VStr (directory c +:+ "/checkpoint.pth")) ].

(** The lines of the configurations that [index] selects. *)
Definition shown (index : option Z) : list string :=
  (λ ic, pretty ic.1 +:+ " " +:+ command ic.2)
    <$> filter (λ ic, negb (skipped index ic.1)) (enumerate grid).

Section WithEnv.
Context (E : env).

Definition body (run : bool) (index : option Z) (ic : nat * config)
    : M unit :=
  let '(i, c) := ic in
  if skipped index i then ret tt
  else (print (pretty i +:+ " " +:+ command c) ;;;
        if run then invoke_basic E (invocation c) else ret tt)%cmd.

Definition experiment (run : bool) (index : option Z) : M unit :=
  for_each (enumerate grid) (body run index).

(** [ibp experiment ...] *)
Definition main (argv : list token) : M unit :=
  run_command E "experiment" params
    (λ kwargs, experiment (kw_bool kwargs "run") (kw_int kwargs "index"))
    argv.

End WithEnv.
End Experiment.

(** ** [pgd] *)

Module Pgd.

Definition params : list option_decl := [opt_run; opt_index].

Definition datasets : list string := ["MNIST"; "CIFAR10"].
Definition epsilons : list float := [0.01; 0.03; 0.1; 0.2]%float.
Definition model_size : list string := ["small"; "medium"].
Definition learning_rates : list number :=
  [Int 0; Float 1e-1; Float 1e-2; Float 1e-3].
Definition test_epsilons : list float := [2 / 255; 0.1; 0.2; 0.3]%float.

(** (dataset, epsilon, model, learning_rate, test_epsilon) *)
Definition config : Type := string * float * string * number * float.

(** The generator [experiments()]: the product, with the [continue]s. *)
Definition experiments : list config :=
  '(dataset, epsilon, model, learning_rate, test_epsilon) ←
    product5 datasets epsilons model_size learning_rates test_epsilons;
  if String.eqb dataset "CIFAR10" then
    if negb (PrimFloat.eqb test_epsilon (2 / 255))
       || negb (PrimFloat.eqb epsilon 0.01)
    then []
    else [(dataset, epsilon, model, learning_rate, test_epsilon)]
  else if PrimFloat.eqb test_epsilon (2 / 255) || PrimFloat.eqb epsilon 0.01
  then []
  else [(dataset, epsilon, model, learning_rate, test_epsilon)].

Definition dataset_of (c : config) : string := c.1.1.1.1.
Definition epsilon_of (c : config) : float := c.1.1.1.2.
Definition model_of (c : config) : string := c.1.1.2.
Definition learning_rate_of (c : config) : number := c.1.2.
Definition test_epsilon_of (c : config) : float := c.2.

Definition checkpoint_file (c : config) : string :=
  let '(dataset, epsilon, model, learning_rate, test_epsilon) := c in
  if number_eqb learning_rate (Int 0)
  then "dm_torch/" +:+ lower dataset +:+ "-" +:+ model +:+ "-"
         +:+ float_repr epsilon +:+ ".pth"
  else dataset +:+ "-" +:+ model +:+ "_cnn-" +:+ float_repr epsilon
         +:+ "/" +:+ number_str learning_rate +:+ "/checkpoint.pth".

(** What [print(i, f'{dataset}-{model}-{epsilon}', learning_rate,
    test_epsilon)] writes. *)
Definition line (i : nat) (c : config) : string :=
  let '(dataset, epsilon, model, learning_rate, test_epsilon) := c in
  pretty i +:+ " " +:+ dataset +:+ "-" +:+ model +:+ "-"
    +:+ float_repr epsilon +:+ " " +:+ number_str learning_rate
    +:+ " " +:+ float_repr test_epsilon.

(** The lines of the experiments that [index] selects. *)
Definition shown (index : option Z) : list string :=
  (λ ic, line ic.1 ic.2)
    <$> filter (λ ic, negb (skipped index ic.1)) (enumerate experiments).

(** The condition on an experiment in the words of the specification: for
    CIFAR10 the test epsilon is 2/255 and epsilon is 0.01, for MNIST neither
    is. *)
Definition spec_kept (c : config) : bool :=
  let '(dataset, epsilon, model, learning_rate, test_epsilon) := c in
  implb (String.eqb dataset "CIFAR10")
    (PrimFloat.eqb test_epsilon (2 / 255) && PrimFloat.eqb epsilon 0.01)
  && implb (String.eqb dataset "MNIST")
       (negb (PrimFloat.eqb test_epsilon (2 / 255))
        && negb (PrimFloat.eqb epsilon 0.01)).

(** The dictionary appended to [checkpoint['PGD']]. *)
Definition record_items (seed subset restarts : pyval) (test_epsilon : float)
    (r : results) : list (string * pyval) :=
  [ ("seed", seed);
    ("subset", subset);
    ("restarts", restarts);
    ("epsilon", VFloat test_epsilon);
    ("robustness", robustness r);
    ("fooling_rate", fooling_rate r);
    ("sorted_errors", sorted_errors r) ].

Definition record (seed subset restarts : pyval) (test_epsilon : float)
    (r : results) : pyval :=
  VDict (list_to_map (record_items seed subset restarts test_epsilon r)).

(** The checkpoint after
    [if 'PGD' not in checkpoint: checkpoint['PGD'] = []] and
    [checkpoint['PGD'].append(rec)]; the list is changed in place, inside
    the dictionary. *)
Definition add_record (checkpoint rec : pyval) : result pyval :=
  and_then (contains "PGD" checkpoint) (λ present,
  and_then (if negb present then setitem checkpoint "PGD" (VList [])
            else Ok checkpoint) (λ checkpoint,
  and_then (getitem checkpoint "PGD") (λ records,
  and_then (append records rec) (λ records,
  setitem checkpoint "PGD" records)))).

(** The records a checkpoint dictionary holds under 'PGD'. *)
Definition stored (d : gmap string pyval) (old : list pyval) : Prop :=
  (d !! "PGD" = None ∧ old = []) ∨ d !! "PGD" = Some (VList old).

Section WithEnv.
Context (E : env).

Definition attack_args (dataset : string) (test_epsilon : float)
    (subset restarts seed : pyval) : robustness_args :=
  {| ra_dataset := dataset;
     ra_device := if cuda_is_available E then "cuda" else "cpu";
     ra_attack_name := "PGD";
     ra_restarts := restarts;
     ra_subset := subset;
     ra_subset_seed := seed;
     ra_attack_kwargs := {[ "epsilon" := VFloat test_epsilon ]} |}.

(** The block under [if run:]. *)
Definition evaluate (c : config) (subset restarts seed : pyval) : M unit :=
  let '(dataset, epsilon, model, learning_rate, test_epsilon) := c in
  let name := model +:+ "_cnn" in
  (net0 <- call (Call_model name)
             (from_option id (Raise (KeyError name)) (models_dict E name)) ;;
   net1 <- call (Call_fit_to_dataset dataset)
             (fit_to_dataset E net0 dataset) ;;
   checkpoint <- torch_load (checkpoint_file c) ;;
   state_dict <- lift (getitem checkpoint "state_dict") ;;
   net2 <- call (Call_load_state_dict state_dict)
             (load_state_dict E net1 state_dict) ;;
   let args := attack_args dataset test_epsilon subset restarts seed in
   results <- call (Call_compute_robustness args)
                (compute_robustness E net2 args) ;;
   checkpoint <- lift (add_record checkpoint
                         (record seed subset restarts test_epsilon results)) ;;
   torch_save E checkpoint (checkpoint_file c))%cmd.

(** The events of a complete evaluation. *)
Definition evaluation_trace (c : config) (subset restarts seed : pyval)
    (state_dict saved : pyval) : list event :=
  [ Call_model (model_of c +:+ "_cnn");
    Call_fit_to_dataset (dataset_of c);
    Call_torch_load (checkpoint_file c);
    Call_load_state_dict state_dict;
    Call_compute_robustness
      (attack_args (dataset_of c) (test_epsilon_of c) subset restarts seed);
    Call_torch_save saved (checkpoint_file c) ].

Definition body (run : bool) (index : option Z) (subset restarts seed : pyval)
    (ic : nat * config) : M unit :=
  let '(i, c) := ic in
  if skipped index i then ret tt
  else (print (line i c) ;;;
        if run then evaluate c subset restarts seed else ret tt)%cmd.

(** [pgd(run, index, subset=None, restarts=1, seed=None)] *)
Definition pgd (run : bool) (index : option Z) (subset restarts seed : pyval)
    : M unit :=
  for_each (enumerate experiments) (body run index subset restarts seed).

(** [ibp pgd ...]: click passes [run] and [index]; the other parameters
    keep the defaults of the signature. *)
Definition main (argv : list token) : M unit :=
  run_command E "pgd" params
    (λ kwargs, pgd (kw_bool kwargs "run") (kw_int kwargs "index")
                 VNone (VInt 1) VNone)
    argv.

End WithEnv.
End Pgd.

(** An event that only writes to standard output. *)
Definition is_output (ev : event) : Prop :=
  match ev with
  | Stdout _ | Stdout_help _ => True
  | _ => False
  end.

(** An outcome that left the files alone and only wrote to standard
    output. *)
Definition only_printed (w : world) (out : result unit * world) : Prop :=
  fs out.2 = fs w ∧
  ∃ evs, trace out.2 = trace w ++ evs ∧ Forall is_output evs.

(** * A concrete set of collaborators, for running the commands *)

Definition toy_results (a : robustness_args) : results :=
  {| robustness := VFloat 0.5;
     fooling_rate := VFloat 0.25;
     sorted_errors := VList [VFloat 0.125; VFloat 0.75] |}.

Definition toy_env : env :=
  {| net := list pyval;
     models_dict := λ name,
       if bool_decide (name ∈ ["small_cnn"; "medium_cnn"; "large_cnn"])
       then Some (Ok []) else None;
     fit_to_dataset := λ n dataset, Ok n;
     load_state_dict := λ n sd, Ok (sd :: n);
     compute_robustness := λ n a, Ok (toy_results a);
     cuda_is_available := false;
     train_classifier := λ kwargs files, (Ok tt, files);
     unreadable := λ path, false;
     torch_save_failure := λ v path files, None |}.

(** The same collaborators, but the attack runs out of memory at test
    epsilon 0.2. *)
Definition failing_attack_env : env :=
  {| net := list pyval;
     models_dict := models_dict toy_env;
     fit_to_dataset := fit_to_dataset toy_env;
     load_state_dict := load_state_dict toy_env;
     compute_robustness := λ n a,
       match ra_attack_kwargs a !! "epsilon" with
       | Some (VFloat f) =>
           if PrimFloat.eqb f 0.2 then Raise (Raised "out of memory")
           else Ok (toy_results a)
       | _ => Ok (toy_results a)
       end;
     cuda_is_available := false;
     train_classifier := train_classifier toy_env;
     unreadable := λ path, false;
     torch_save_failure := λ v path files, None |}.

(** The same collaborators, on a disk that is full: [torch.save] raises
    after it has emptied the file. *)
Definition full_disk_env : env :=
  {| net := list pyval;
     models_dict := models_dict toy_env;
     fit_to_dataset := fit_to_dataset toy_env;
     load_state_dict := load_state_dict toy_env;
     compute_robustness := compute_robustness toy_env;
     cuda_is_available := false;
     train_classifier := train_classifier toy_env;
     unreadable := λ path, false;
     torch_save_failure := λ v path files,
       Some (Raised "No space left on device", Some "") |}.

(** The same collaborators, where the file secret.pth exists and may not
    be read. *)
Definition locked_env : env :=
  {| net := list pyval;
     models_dict := models_dict toy_env;
     fit_to_dataset := fit_to_dataset toy_env;
     load_state_dict := load_state_dict toy_env;
     compute_robustness := compute_robustness toy_env;
     cuda_is_available := false;
     train_classifier := train_classifier toy_env;
     unreadable := λ path, String.eqb path "secret.pth";
     torch_save_failure := λ v path files, None |}.

Definition empty_world : world := {| fs := ∅; trace := [] |}.

(** A world with the checkpoint of the first [pgd] experiment. *)
Definition toy_world : world :=
  {| fs := {[ "dm_torch/mnist-small-0.03.pth" :=
               Pickle (VDict {[ "state_dict" := VDict ∅ ]}) ]};
     trace := [] |}.

(** A world whose first checkpoint has no 'state_dict'. *)
Definition bare_world : world :=
  {| fs := {[ "dm_torch/mnist-small-0.03.pth" :=
               Pickle (VDict {[ "best" := VFloat 0.5 ]}) ]};
     trace := [] |}.

(** The first two experiments of [pgd]; they share a checkpoint file. *)
Definition c0 : Pgd.config := ("MNIST", 0.03, "small", Int 0, 0.1)%float.
Definition c1 : Pgd.config := ("MNIST", 0.03, "small", Int 0, 0.2)%float.
Definition run0 : result unit * world :=
  Pgd.pgd toy_env true (Some 0%Z) VNone (VInt 1) VNone toy_world.
Definition run1 : result unit * world :=
  Pgd.pgd toy_env true (Some 1%Z) VNone (VInt 1) VNone run0.2.

(** Command lines. *)
Definition negative_lr : list token :=
  [Value "-lr" (Word "-1" (RInt (-1)))].
Definition negative_epsilon : list token :=
  [Value "--epsilon" (Word "-0.5" (RFloat (-0.5)))].
Definition with_restarts : list token :=
  [Switch "--run"; Value "--index" (Word "0" (RInt 0));
   Value "--restarts" (Word "5" (RInt 5))].
Definition run_first : list token :=
  [Switch "--run"; Value "--index" (Word "0" (RInt 0))].

(** A parameter declared once. *)
Definition declared_once (decls : list option_decl) (d : option_decl) : Prop :=
  d ∈ decls ∧ ∀ d', d' ∈ decls → dest d' = dest d → d' = d.

(** * Definitions for the further properties *)

(** ** Positions in the grids *)

(** The configuration of [experiment] at position [i], by the digits of [i]
    in the mixed radix 4 x 7 x 3 x 3. *)
Definition experiment_at (i : nat) : Experiment.config :=
  (nth (i / 63) Experiment.datasets "",
   nth (i / 9 mod 7) Experiment.epsilons 0%float,
   nth (i / 3 mod 3) Experiment.learning_rates 0%float,
   nth (i mod 3) Experiment.models "").

(** The experiment of [pgd] at position [i]: 72 on MNIST, then 8 on
    CIFAR10. *)
Definition pgd_experiment_at (i : nat) : Pgd.config :=
  if (i <? 72)%nat then
    ("MNIST", nth (i / 24) [0.03; 0.1; 0.2]%float 0%float,
     nth (i / 12 mod 2) Pgd.model_size "",
     nth (i / 3 mod 4) Pgd.learning_rates (Int 0),
     nth (i mod 3) [0.1; 0.2; 0.3]%float 0%float)
  else
    ("CIFAR10", 0.01%float, nth ((i - 72) / 4) Pgd.model_size "",
     nth ((i - 72) mod 4) Pgd.learning_rates (Int 0), (2 / 255)%float).

(** The configurations that [index] selects, with their positions. *)
Definition selected_configs (index : option Z)
    : list (nat * Experiment.config) :=
  filter (λ ic, negb (skipped index ic.1)) (enumerate Experiment.grid).

(** The keyword arguments [basic] receives from [experiment]. *)
Definition training_kwargs (ic : nat * Experiment.config)
    : gmap string pyval :=
  Experiment.invocation ic.2 ∪ defaults basic_params.

(** Trainings one after the other: the configurations of [ran] were
    trained in this order, the first on the files [files] and each of the
    others on the files its predecessor left; all returned normally, but
    the last when the outcome is an exception, which is then the exception
    it raised; [files'] are the files the last one left. *)
Inductive trained (E : env)
    : gmap string file → list (nat * Experiment.config) → result unit
      → gmap string file → Prop :=
| trained_none files : trained E files [] (Ok tt) files
| trained_raised files ic e files' :
    train_classifier E (training_kwargs ic) files = (Raise e, files') →
    trained E files [ic] (Raise e) files'
| trained_next files ic files1 ran r files' :
    train_classifier E (training_kwargs ic) files = (Ok tt, files1) →
    trained E files1 ran r files' →
    trained E files (ic :: ran) r files'.

(** What [experiment] logs for one configuration in run mode. *)
Definition training_events (ic : nat * Experiment.config) : list event :=
  [ Stdout (pretty ic.1 +:+ " " +:+ Experiment.command ic.2);
    Call_train_classifier
      (Experiment.invocation ic.2 ∪ defaults basic_params) ].

(** The text of an option of [basic] that takes text: the word written
    last for it, else its default. *)
Definition option_text (d : option_decl) (argv : list token) : string :=
  match last_value (names d) argv, default d with
  | Some wd, _ => text wd
  | None, VStr s => s
  | None, _ => ""
  end.

(** The names of the parameters of [train_classifier] that [basic] passes. *)
Definition basic_parameter_names : gset string :=
  {[ "evaluate_only"; "dataset"; "model"; "pretrained"; "learning_rate";
     "momentum"; "weight_decay"; "epochs"; "batch_size"; "jobs";
     "checkpoint"; "resume"; "log_dir"; "seed"; "epsilon" ]}.

(** A world whose first checkpoint has None under 'PGD'. *)
Definition listless_checkpoint : gmap string pyval :=
  <["PGD" := VNone]> {[ "state_dict" := VDict ∅ ]}.
Definition listless_world : world :=
  {| fs := {[ "dm_torch/mnist-small-0.03.pth" :=
               Pickle (VDict listless_checkpoint) ]};
     trace := [] |}.

(** The fourth experiment of [pgd], the first with a trained checkpoint. *)
Definition c3 : Pgd.config := ("MNIST", 0.03, "small", Float 0.1, 0.1)%float.

(** The world of a run of [pgd] on experiment [i] after [k] of its six
    calls, none of which has written a file. *)
Definition after_calls (E : env) (i : nat) (c : Pgd.config)
    (subset restarts seed : pyval) (w : world) (k : nat) (state_dict : pyval)
    : world :=
  {| fs := fs w;
     trace := trace w ++ Stdout (Pgd.line i c) ::
              take k (Pgd.evaluation_trace E c subset restarts seed
                        state_dict VNone) |}.

(** More command lines. *)
Definition negative_index : list token :=
  [Value "-i" (Word "-3" (RInt (-3)))].
Definition negative_batch : list token :=
  [Value "--batch-size" (Word "-8" (RInt (-8)))].
Definition other_dataset : list token :=
  [Value "-d" (Word "SVHN" RText)].
Definition resume_secret : list token :=
  [Value "--resume" (Word "secret.pth" RText)].
Definition run_all : list token := [Switch "--run"].

(** The record that a run on experiment [i] appends, for some result of
    [compute_robustness]. *)
Definition record_of_run (seed subset restarts : pyval) (i : nat)
    (rec : pyval) : Prop :=
  ∃ c res, Pgd.experiments !! i = Some c ∧
           rec = Pgd.record seed subset restarts (Pgd.test_epsilon_of c) res.

(** * Properties *)

(** ** Loops *)

Lemma bind_unit_ret (m : M unit) (k : M unit) w :
  (∀ w', k w' = (Ok tt, w')) →
  bind m (λ _, k) w = m w.
Proof.
  intros Hk. unfold bind. destruct (m w) as [[[]|e] w']; [apply Hk | done].
Qed.

Lemma for_each_noop {A} (body : A → M unit) (l : list A) w :
  (∀ x w', x ∈ l → body x w' = (Ok tt, w')) →
  for_each l body w = (Ok tt, w).
Proof.
  revert w. induction l as [|x l IH]; intros w Hb; [done|].
  simpl. unfold bind. rewrite Hb by left.
  apply IH. intros y w' Hy. apply Hb. by right.
Qed.

Lemma enumerate_from_fst {A} (l : list A) n j c :
  (j, c) ∈ enumerate_from n l → n ≤ j.
Proof.
  revert n. induction l as [|x l IH]; intros n; simpl.
  - by intros ?%elem_of_nil.
  - intros [[= -> ->]|H%IH]%elem_of_cons; lia.
Qed.

Lemma enumerate_from_lookup {A} (l : list A) n k :
  enumerate_from n l !! k = (λ c, (n + k, c)) <$> l !! k.
Proof.
  revert n k. induction l as [|x l IH]; intros n [|k]; simpl; try done.
  - by rewrite Nat.add_0_r.
  - rewrite IH. by replace (S n + k) with (n + S k) by lia.
Qed.

(** With [index] given, the loop runs the body of that position only. *)
Lemma for_each_selected {A} (body : nat * A → M unit) (i : nat) :
  (∀ j c w, j ≠ i → body (j, c) w = (Ok tt, w)) →
  ∀ (l : list A) n w, n ≤ i →
    for_each (enumerate_from n l) body w =
      match l !! (i - n) with
      | Some c => body (i, c) w
      | None => (Ok tt, w)
      end.
Proof.
  intros Hskip l. induction l as [|x l IH]; intros n w Hn; [done|].
  simpl. destruct (decide (n = i)) as [->|Hne].
  - rewrite Nat.sub_diag. simpl. apply bind_unit_ret.
    intros w'. apply for_each_noop. intros [j c] w'' Hin.
    apply Hskip. apply enumerate_from_fst in Hin. lia.
  - unfold bind. rewrite Hskip by done.
    rewrite IH by lia. replace (i - n) with (S (i - S n)) by lia. done.
Qed.

Lemma for_each_invariant {A} (P : world → Prop) (body : A → M unit) (l : list A) :
  (∀ x w r w', x ∈ l → P w → body x w = (r, w') → P w') →
  ∀ w r w', P w → for_each l body w = (r, w') → P w'.
Proof.
  induction l as [|x l IH]; intros Hb w r w' HP; simpl.
  - by intros [= <- <-].
  - unfold bind. destruct (body x w) as [[[]|e] w1] eqn:Hx.
    + apply IH; [|by eapply Hb; [left|..]].
      intros y ? ? ? Hy. apply Hb. by right.
    + intros [= <- <-]. eapply Hb; [left|done..].
Qed.

(** A failing loop fails in the body of one element, after the bodies of
    the elements before it have returned. *)
Lemma for_each_raise {A} (body : A → M unit) (l : list A) w e w' :
  for_each l body w = (Raise e, w') →
  ∃ k x w1, l !! k = Some x ∧
    for_each (take k l) body w = (Ok tt, w1) ∧ body x w1 = (Raise e, w').
Proof.
  revert w. induction l as [|x l IH]; intros w; simpl; [done|].
  unfold bind. destruct (body x w) as [[[]|e1] w1] eqn:Hx.
  - intros (k & y & w2 & Hk & Hpre & Hy)%IH.
    exists (S k), y, w2. simpl. unfold bind. by rewrite Hx.
  - intros [= <- <-]. by exists 0, x, w.
Qed.

(** In show mode a loop prints the lines of the selected elements. *)
Lemma for_each_print {A} (body : A → M unit) (sel : A → bool) (ln : A → string) :
  (∀ x w, body x w = if sel x then print (ln x) w else (Ok tt, w)) →
  ∀ l w, for_each l body w =
    (Ok tt, {| fs := fs w;
               trace := trace w ++ ((Stdout ∘ ln) <$> filter (λ x, sel x) l) |}).
Proof.
  intros Hb l. induction l as [|x l IH]; intros w; simpl.
  - rewrite app_nil_r. by destruct w.
  - unfold bind. rewrite Hb. rewrite filter_cons.
    destruct (sel x) eqn:Hs; simpl.
    + rewrite IH. simpl. by rewrite <- app_assoc.
    + apply IH.
Qed.

Lemma skipped_other (i j : nat) : j ≠ i → skipped (Some (Z.of_nat i)) j = true.
Proof. intros H. unfold skipped. apply negb_true_iff, Z.eqb_neq. lia. Qed.

Lemma skipped_same (i : nat) : skipped (Some (Z.of_nat i)) i = false.
Proof. unfold skipped. by rewrite Z.eqb_refl. Qed.

(** * [pgd] on one experiment *)

Section PgdFacts.
Context (E : env).
Implicit Types (c : Pgd.config) (w : world) (subset restarts seed : pyval).

Lemma pgd_selected run (i : nat) subset restarts seed w :
  Pgd.pgd E run (Some (Z.of_nat i)) subset restarts seed w =
    match Pgd.experiments !! i with
    | Some c =>
        bind (print (Pgd.line i c))
          (λ _, if run then Pgd.evaluate E c subset restarts seed else ret tt)
          w
    | None => (Ok tt, w)
    end.
Proof.
  unfold Pgd.pgd, enumerate.
  rewrite (for_each_selected _ i);
    [|intros j c w' Hj; unfold Pgd.body; by rewrite skipped_other|lia].
  rewrite Nat.sub_0_r. destruct (Pgd.experiments !! i); [|done].
  unfold Pgd.body. by rewrite skipped_same.
Qed.

Lemma add_record_ok v rec v' :
  Pgd.add_record v rec = Ok v' →
  ∃ d old, v = VDict d ∧ Pgd.stored d old ∧
           v' = VDict (<["PGD" := VList (old ++ [rec])]> d).
Proof.
  unfold Pgd.add_record.
  destruct v as [| | | |s|l|d]; simpl; try done.
  { by destruct (String.index 0 "PGD" s). }
  { by destruct (existsb _ l). }
  destruct (d !! "PGD") as [old|] eqn:Hold; simpl.
  - rewrite Hold. simpl. destruct old as [| | | | |old|]; simpl; try done.
    intros [= <-]. exists d, old. split; [done|]. split; [by right|done].
  - rewrite lookup_insert_eq. simpl. rewrite insert_insert_eq.
    intros [= <-]. exists d, []. split; [done|]. split; [by left|done].
Qed.

Lemma evaluate_ok c subset restarts seed w w' :
  Pgd.evaluate E c subset restarts seed w = (Ok tt, w') →
  ∃ n0 n1 n2 d sd res old,
    models_dict E (Pgd.model_of c +:+ "_cnn") = Some (Ok n0) ∧
    fit_to_dataset E n0 (Pgd.dataset_of c) = Ok n1 ∧
    fs w !! Pgd.checkpoint_file c = Some (Pickle (VDict d)) ∧
    d !! "state_dict" = Some sd ∧
    load_state_dict E n1 sd = Ok n2 ∧
    compute_robustness E n2
      (Pgd.attack_args E (Pgd.dataset_of c) (Pgd.test_epsilon_of c)
         subset restarts seed) = Ok res ∧
    Pgd.stored d old ∧
    let saved :=
      VDict (<["PGD" := VList (old ++
               [Pgd.record seed subset restarts (Pgd.test_epsilon_of c) res])]>
               d) in
    w' = {| fs := <[Pgd.checkpoint_file c := Pickle saved]> (fs w);
            trace := trace w ++
                     Pgd.evaluation_trace E c subset restarts seed sd saved |}.
Proof.
  destruct c as [[[[dataset epsilon] model] learning_rate] test_epsilon].
  unfold Pgd.evaluate, Pgd.evaluation_trace.
  set (path := Pgd.checkpoint_file _).
  unfold bind, call, lift, ret, torch_load, load_file, torch_save, log.
  cbn [fs trace Pgd.model_of Pgd.dataset_of Pgd.test_epsilon_of fst snd].
  destruct (models_dict E (model +:+ "_cnn")) as [[n0|?]|] eqn:Hm; simpl; try done.
  destruct (fit_to_dataset E n0 dataset) as [n1|?] eqn:Hf; [|done].
  destruct (fs w !! path) as [[v|?]|] eqn:Hl; [|done..].
  destruct (getitem v "state_dict") as [sd|?] eqn:Hsd; [|done].
  destruct (load_state_dict E n1 sd) as [n2|?] eqn:Hs; [|done].
  destruct (compute_robustness E n2 _) as [res|?] eqn:Hc; [|done].
  destruct (Pgd.add_record v _) as [v'|?] eqn:Ha; [|done].
  apply add_record_ok in Ha as (d & old & -> & Ho & ->).
  destruct (torch_save_failure E _ path (fs w)) as [[e [bytes|]]|]; [done..|].
  intros [= <-]. exists n0, n1, n2, d, sd, res, old.
  simpl in Hsd. destruct (d !! "state_dict") eqn:Hd; [|done].
  injection Hsd as ->.
  repeat split; try done. by rewrite <- !app_assoc.
Qed.

(** The calls of an evaluation: how many of the six were made, and what
    follows from the number.  Only the last call, [torch.save], writes, and
    it writes the checkpoint file only; it is called with the checkpoint
    that was loaded, the new record appended, and its outcome is the outcome
    of the evaluation. *)
Lemma evaluate_steps c subset restarts seed w r w' :
  Pgd.evaluate E c subset restarts seed w = (r, w') →
  ∃ sd saved k,
    1 ≤ k ≤ 6 ∧
    trace w' = trace w ++
               take k (Pgd.evaluation_trace E c subset restarts seed sd saved)
    ∧ (k < 6 → r ≠ Ok tt ∧ fs w' = fs w)
    ∧ (∀ p, p ≠ Pgd.checkpoint_file c → fs w' !! p = fs w !! p)
    ∧ (k = 6 →
       ∃ d old res n,
         fs w !! Pgd.checkpoint_file c = Some (Pickle (VDict d)) ∧
         d !! "state_dict" = Some sd ∧
         compute_robustness E n
           (Pgd.attack_args E (Pgd.dataset_of c) (Pgd.test_epsilon_of c)
              subset restarts seed) = Ok res ∧
         Pgd.stored d old ∧
         saved = VDict (<["PGD" := VList (old ++
                   [Pgd.record seed subset restarts (Pgd.test_epsilon_of c)
                      res])]> d) ∧
         (r, w') =
           torch_save E saved (Pgd.checkpoint_file c)
             {| fs := fs w;
                trace := trace w ++
                  take 5 (Pgd.evaluation_trace E c subset restarts seed sd
                            VNone) |}).
Proof.
  destruct c as [[[[dataset epsilon] model] learning_rate] test_epsilon].
  unfold Pgd.evaluate, Pgd.evaluation_trace.
  set (path := Pgd.checkpoint_file _).
  unfold bind, call, lift, ret, torch_load, load_file, log.
  cbn [fs trace Pgd.model_of Pgd.dataset_of Pgd.test_epsilon_of fst snd].
  destruct (models_dict E (model +:+ "_cnn")) as [[n0|?]|]; simpl;
    [|intros [= <- <-]; exists VNone, VNone, 1; simpl;
      repeat split; (done || lia)..].
  destruct (fit_to_dataset E n0 dataset) as [n1|?];
    [|intros [= <- <-]; exists VNone, VNone, 2; simpl; rewrite <- !app_assoc;
      repeat split; (done || lia)].
  destruct (fs w !! path) as [[v|?]|] eqn:Hl;
    [|intros [= <- <-]; exists VNone, VNone, 3; simpl; rewrite <- !app_assoc;
      repeat split; (done || lia)..].
  destruct (getitem v "state_dict") as [sd|?] eqn:Hsd;
    [|intros [= <- <-]; exists VNone, VNone, 3; simpl; rewrite <- !app_assoc;
      repeat split; (done || lia)].
  destruct (load_state_dict E n1 sd) as [n2|?];
    [|intros [= <- <-]; exists sd, VNone, 4; simpl; rewrite <- !app_assoc;
      repeat split; (done || lia)].
  destruct (compute_robustness E n2 _) as [res|?] eqn:Hres;
    [|intros [= <- <-]; exists sd, VNone, 5; simpl; rewrite <- !app_assoc;
      repeat split; (done || lia)].
  destruct (Pgd.add_record v _) as [v'|?] eqn:Ha;
    [|intros [= <- <-]; exists sd, VNone, 5; simpl; rewrite <- !app_assoc;
      repeat split; (done || lia)].
  apply add_record_ok in Ha as (d & old & -> & Ho & ->).
  simpl in Hsd. destruct (d !! "state_dict") eqn:Hd; [|done].
  injection Hsd as ->.
  set (saved := VDict _). rewrite <- !app_assoc. cbn [app].
  intros Hsave. exists sd, saved, 6. split; [lia|].
  assert (Hlast : (r, w') =
    torch_save E saved path
      {| fs := fs w;
         trace := trace w ++
           take 5 [Call_model (model +:+ "_cnn"); Call_fit_to_dataset dataset;
                   Call_torch_load path; Call_load_state_dict sd;
                   Call_compute_robustness
                     (Pgd.attack_args E dataset test_epsilon subset restarts
                        seed);
                   Call_torch_save VNone path] |}).
  { rewrite <- Hsave. unfold torch_save, log. cbn [fs trace firstn take].
    by rewrite <- !app_assoc. }
  revert Hsave. unfold torch_save, log. cbn [fs trace].
  destruct (torch_save_failure E saved path (fs w)) as [[e [bytes|]]|];
    intros [= <- <-]; cbn [fs trace firstn take]; rewrite <- ?app_assoc.
  all: split; [done|]; split; [lia|]; split;
    [intros p Hp; by rewrite ?lookup_insert_ne|].
  all: intros _; by exists d, old, res, n2.
Qed.

(** An evaluation logs a prefix of the events of a complete one. *)
Lemma evaluate_trace c subset restarts seed w r w' :
  Pgd.evaluate E c subset restarts seed w = (r, w') →
  ∃ sd saved k,
    trace w' = trace w ++
               take k (Pgd.evaluation_trace E c subset restarts seed sd saved).
Proof.
  intros (sd & saved & k & _ & Ht & _)%evaluate_steps. by exists sd, saved, k.
Qed.

(** An evaluation writes no file but its checkpoint file. *)
Lemma evaluate_frame c subset restarts seed w r w' p :
  Pgd.evaluate E c subset restarts seed w = (r, w') →
  p ≠ Pgd.checkpoint_file c → fs w' !! p = fs w !! p.
Proof.
  intros (sd & saved & k & _ & _ & _ & Hp & _)%evaluate_steps. apply Hp.
Qed.

End PgdFacts.

Section PgdClaims.
Context (E : env).
Implicit Types (c : Pgd.config) (w : world) (subset restarts seed : pyval).

(** One successful run of [pgd] on experiment [i]. *)
Lemma pgd_run_ok (i : nat) c subset restarts seed w w' :
  Pgd.experiments !! i = Some c →
  Pgd.pgd E true (Some (Z.of_nat i)) subset restarts seed w = (Ok tt, w') →
  ∃ d sd res old n,
    fs w !! Pgd.checkpoint_file c = Some (Pickle (VDict d)) ∧
    d !! "state_dict" = Some sd ∧
    compute_robustness E n
      (Pgd.attack_args E (Pgd.dataset_of c) (Pgd.test_epsilon_of c) subset restarts seed) = Ok res ∧
    Pgd.stored d old ∧
    let saved := VDict (<["PGD" := VList (old ++
                   [Pgd.record seed subset restarts (Pgd.test_epsilon_of c) res])]> d) in
    w' = {| fs := <[Pgd.checkpoint_file c := Pickle saved]> (fs w);
            trace := trace w ++ Stdout (Pgd.line i c) ::
                     Pgd.evaluation_trace E c subset restarts seed sd saved |}.
Proof.
  intros Hc. rewrite pgd_selected, Hc.
  unfold bind at 1. unfold print, call.
  intros (n0 & n1 & n2 & d & sd & res & old & _ & _ & Hl & Hsd & _ & Hr & Ho
          & ->)%evaluate_ok.
  exists d, sd, res, old, n2. repeat split; try done.
  simpl. by rewrite <- app_assoc.
Qed.

(** C1: a run of [pgd] on an experiment appends exactly one record to the
    list under 'PGD' of the checkpoint it loaded (the empty list when the
    key was absent); the records stored before, the other keys and the
    other files are kept; a second run on the same checkpoint file leaves
    both records, in the order of the runs. *)
Theorem pgd_appends_one_record (i : nat) c subset restarts seed w w' :
  Pgd.experiments !! i = Some c →
  Pgd.pgd E true (Some (Z.of_nat i)) subset restarts seed w = (Ok tt, w') →
  ∃ d old res,
    let r := Pgd.record seed subset restarts (Pgd.test_epsilon_of c) res in
    fs w !! Pgd.checkpoint_file c = Some (Pickle (VDict d)) ∧
    Pgd.stored d old ∧
    fs w' = <[Pgd.checkpoint_file c :=
                Pickle (VDict (<["PGD" := VList (old ++ [r])]> d))]> (fs w) ∧
    ∀ (j : nat) c2 subset2 restarts2 seed2 w'',
      Pgd.experiments !! j = Some c2 →
      Pgd.checkpoint_file c2 = Pgd.checkpoint_file c →
      Pgd.pgd E true (Some (Z.of_nat j)) subset2 restarts2 seed2 w'
        = (Ok tt, w'') →
      ∃ res2,
        let r2 := Pgd.record seed2 subset2 restarts2 (Pgd.test_epsilon_of c2) res2 in
        fs w'' = <[Pgd.checkpoint_file c :=
                     Pickle (VDict (<["PGD" := VList (old ++ [r; r2])]> d))]>
                   (fs w) ∧
        getitem r "epsilon" = Ok (VFloat (Pgd.test_epsilon_of c)) ∧
        getitem r2 "epsilon" = Ok (VFloat (Pgd.test_epsilon_of c2)).
Proof.
  intros Hc (d & sd & res & old & n & Hl & _ & _ & Ho & ->)%(pgd_run_ok _ c);
    [|done].
  exists d, old, res. simpl. repeat split; try done.
  intros j c2 subset2 restarts2 seed2 w'' Hc2 Hpath.
  intros (d2 & sd2 & res2 & old2 & n2 & Hl2 & _ & _ & Ho2 & ->)%(pgd_run_ok _ c2);
    [|done].
  simpl in Hl2. rewrite Hpath, lookup_insert_eq in Hl2.
  injection Hl2 as <-.
  destruct Ho2 as [[Hn _]|Ho2]; [by rewrite lookup_insert_eq in Hn|].
  rewrite lookup_insert_eq in Ho2. injection Ho2 as <-.
  exists res2. simpl. rewrite Hpath.
  rewrite !insert_insert_eq, <- app_assoc. done.
Qed.

(** C5: the record appended by [pgd] is a dictionary with exactly the keys
    seed, subset, restarts, epsilon, robustness, fooling_rate and
    sorted_errors; the last three are read from the result of
    [compute_robustness], and epsilon is the test epsilon the attack was
    called with. *)
Theorem pgd_record_fields (i : nat) c subset restarts seed w w' :
  Pgd.experiments !! i = Some c →
  Pgd.pgd E true (Some (Z.of_nat i)) subset restarts seed w = (Ok tt, w') →
  ∃ d old r res n,
    let args := Pgd.attack_args E (Pgd.dataset_of c) (Pgd.test_epsilon_of c) subset restarts seed in
    fs w' !! Pgd.checkpoint_file c = Some (Pickle (VDict d)) ∧
    d !! "PGD" = Some (VList (old ++ [VDict r])) ∧
    dom r = {[ "seed"; "subset"; "restarts"; "epsilon"; "robustness";
               "fooling_rate"; "sorted_errors" ]} ∧
    Call_compute_robustness args ∈ trace w' ∧
    compute_robustness E n args = Ok res ∧
    ra_attack_kwargs args = {[ "epsilon" := VFloat (Pgd.test_epsilon_of c) ]} ∧
    r !! "epsilon" = Some (VFloat (Pgd.test_epsilon_of c)) ∧
    r !! "robustness" = Some (robustness res) ∧
    r !! "fooling_rate" = Some (fooling_rate res) ∧
    r !! "sorted_errors" = Some (sorted_errors res) ∧
    r !! "seed" = Some seed ∧
    r !! "subset" = Some subset ∧
    r !! "restarts" = Some restarts.
Proof.
  intros Hc (d & sd & res & old & n & Hl & _ & Hr & Ho & ->)%(pgd_run_ok _ c);
    [|done].
  eexists _, old,
    (list_to_map (Pgd.record_items seed subset restarts (Pgd.test_epsilon_of c) res)), res, n.
  cbv zeta. cbn [fs trace].
  split; [by rewrite lookup_insert_eq|].
  split; [by rewrite lookup_insert_eq|].
  split; [rewrite dom_list_to_map_L; simpl; set_solver|].
  split.
  { destruct c as [[[[dataset epsilon] model] learning_rate] test_epsilon].
    simpl. set_solver. }
  by repeat split.
Qed.

(** C3: when the checkpoint file loads to a dictionary without the key
    'state_dict', [pgd] raises the key error that names the missing key,
    not a failure of deserialization, and writes nothing. *)
Theorem pgd_missing_state_dict (i : nat) c subset restarts seed w n0 n1 d :
  Pgd.experiments !! i = Some c →
  models_dict E ((Pgd.model_of c) +:+ "_cnn") = Some (Ok n0) →
  fit_to_dataset E n0 (Pgd.dataset_of c) = Ok n1 →
  fs w !! Pgd.checkpoint_file c = Some (Pickle (VDict d)) →
  d !! "state_dict" = None →
  Pgd.pgd E true (Some (Z.of_nat i)) subset restarts seed w =
    (Raise (KeyError "state_dict"),
     {| fs := fs w;
        trace := trace w ++
          [ Stdout (Pgd.line i c);
            Call_model ((Pgd.model_of c) +:+ "_cnn");
            Call_fit_to_dataset (Pgd.dataset_of c);
            Call_torch_load (Pgd.checkpoint_file c) ] |}).
Proof.
  intros Hc Hm Hf Hl Hsd. rewrite pgd_selected, Hc.
  destruct c as [[[[dataset epsilon] model] learning_rate] test_epsilon].
  unfold Pgd.model_of, Pgd.dataset_of in *. cbn [fst snd] in *.
  unfold Pgd.evaluate.
  set (path := Pgd.checkpoint_file _) in *.
  unfold bind, print, call, lift, torch_load, load_file, log. simpl.
  rewrite Hm. simpl. rewrite Hf, Hl. simpl. rewrite Hsd.
  by rewrite <- !app_assoc.
Qed.

(** The calls of a run on one experiment. *)
Lemma pgd_run_steps (i : nat) c subset restarts seed w :
  Pgd.experiments !! i = Some c →
  let out := Pgd.pgd E true (Some (Z.of_nat i)) subset restarts seed w in
  ∃ sd saved k,
    1 ≤ k ≤ 6 ∧
    trace out.2 = trace w ++ Stdout (Pgd.line i c) ::
                  take k (Pgd.evaluation_trace E c subset restarts seed sd saved)
    ∧ (k < 6 → out.1 ≠ Ok tt ∧ fs out.2 = fs w)
    ∧ (k = 6 →
       ∃ d old res n,
         fs w !! Pgd.checkpoint_file c = Some (Pickle (VDict d)) ∧
         d !! "state_dict" = Some sd ∧
         compute_robustness E n
           (Pgd.attack_args E (Pgd.dataset_of c) (Pgd.test_epsilon_of c)
              subset restarts seed) = Ok res ∧
         Pgd.stored d old ∧
         saved = VDict (<["PGD" := VList (old ++
                   [Pgd.record seed subset restarts (Pgd.test_epsilon_of c)
                      res])]> d) ∧
         out = torch_save E saved (Pgd.checkpoint_file c)
                 (after_calls E i c subset restarts seed w 5 sd)).
Proof.
  intros Hc out. subst out. rewrite pgd_selected, Hc.
  unfold bind, print, call. cbn beta iota.
  destruct (Pgd.evaluate E c subset restarts seed _) as [r w'] eqn:He.
  apply evaluate_steps in He as (sd & saved & k & Hk & Ht & Hlt & _ & Hsix).
  exists sd, saved, k. cbn [fst snd]. rewrite Ht. cbn [trace log fs] in *.
  rewrite <- app_assoc.
  split; [exact Hk|]. split; [reflexivity|]. split; [exact Hlt|].
  intros Hk6. destruct (Hsix Hk6) as (d & old & res & n & ? & ? & ? & ? & ? & Hout).
  exists d, old, res, n. repeat split; try done.
  rewrite Hout. unfold after_calls. by rewrite <- app_assoc.
Qed.

(** The body of the loop that raises has written nothing, unless it has
    called [torch.save]: the call is then the last event. *)
Lemma body_raise run index subset restarts seed ic w e w' :
  Pgd.body E run index subset restarts seed ic w = (Raise e, w') →
  fs w' = fs w ∨
  ∃ v, last (trace w') = Some (Call_torch_save v (Pgd.checkpoint_file ic.2)).
Proof.
  destruct ic as [j c]. unfold Pgd.body.
  destruct (skipped index j); [done|].
  unfold bind, print, call. destruct run; [|done].
  intros (sd & saved & k & Hk & Ht & Hlt & _)%evaluate_steps.
  destruct (decide (k < 6)) as [Hk6|Hk6].
  - left. by destruct (Hlt Hk6) as [_ ->].
  - right. exists saved. assert (k = 6) as -> by lia.
    rewrite Ht. unfold Pgd.evaluation_trace. cbn [firstn take].
    by rewrite last_app.
Qed.

(** C7, amended: a run of [pgd] on one experiment whose checkpoint file
    does not load, or whose checkpoint has no 'state_dict', or whose call
    of [compute_robustness] raises, raises and leaves the files as they
    were.  An experiment writes by its last call only, [torch.save], made
    with the loaded checkpoint and the record appended, after the five
    other calls have returned; the outcome of that call is the outcome of
    the experiment.  In an invocation over several experiments this holds
    for the experiment that raises, on the files that the experiments
    before it have left. *)
Theorem pgd_failure_writes_nothing (i : nat) c subset restarts seed w :
  Pgd.experiments !! i = Some c →
  let out := Pgd.pgd E true (Some (Z.of_nat i)) subset restarts seed w in
  ((∀ v, fs w !! Pgd.checkpoint_file c ≠ Some (Pickle v)) →
   out.1 ≠ Ok tt ∧ fs out.2 = fs w) ∧
  ((∀ v sd, fs w !! Pgd.checkpoint_file c = Some (Pickle v) →
            getitem v "state_dict" ≠ Ok sd) →
   out.1 ≠ Ok tt ∧ fs out.2 = fs w) ∧
  ((∀ n res, compute_robustness E n
               (Pgd.attack_args E (Pgd.dataset_of c) (Pgd.test_epsilon_of c)
                  subset restarts seed)
             ≠ Ok res) →
   out.1 ≠ Ok tt ∧ fs out.2 = fs w) ∧
  ((out.1 ≠ Ok tt ∧ fs out.2 = fs w) ∨
   ∃ d old res sd,
     let saved := VDict (<["PGD" := VList (old ++
                    [Pgd.record seed subset restarts (Pgd.test_epsilon_of c)
                       res])]> d) in
     fs w !! Pgd.checkpoint_file c = Some (Pickle (VDict d)) ∧
     Pgd.stored d old ∧
     out = torch_save E saved (Pgd.checkpoint_file c)
             (after_calls E i c subset restarts seed w 5 sd) ∧
     (out.1 = Ok tt →
      out.2 = {| fs := <[Pgd.checkpoint_file c := Pickle saved]> (fs w);
                 trace := trace w ++ Stdout (Pgd.line i c) ::
                          Pgd.evaluation_trace E c subset restarts seed sd
                            saved |})) ∧
  (∀ index e w',
     Pgd.pgd E true index subset restarts seed w = (Raise e, w') →
     ∃ k ic w1,
       enumerate Pgd.experiments !! k = Some ic ∧
       for_each (take k (enumerate Pgd.experiments))
         (Pgd.body E true index subset restarts seed) w = (Ok tt, w1) ∧
       Pgd.body E true index subset restarts seed ic w1 = (Raise e, w') ∧
       (fs w' = fs w1 ∨
        ∃ v, last (trace w')
             = Some (Call_torch_save v (Pgd.checkpoint_file ic.2)))).
Proof.
  intros Hc out.
  destruct (pgd_run_steps i c subset restarts seed w Hc)
    as (sd & saved & k & Hk & Ht & Hlt & Hsix).
  fold out in Ht, Hlt, Hsix.
  assert (Hloop : ∀ index e w',
    Pgd.pgd E true index subset restarts seed w = (Raise e, w') →
    ∃ k ic w1,
      enumerate Pgd.experiments !! k = Some ic ∧
      for_each (take k (enumerate Pgd.experiments))
        (Pgd.body E true index subset restarts seed) w = (Ok tt, w1) ∧
      Pgd.body E true index subset restarts seed ic w1 = (Raise e, w') ∧
      (fs w' = fs w1 ∨
       ∃ v, last (trace w')
            = Some (Call_torch_save v (Pgd.checkpoint_file ic.2)))).
  { intros index e w'' (k' & ic & w1 & ? & ? & Hb)%for_each_raise.
    exists k', ic, w1. repeat split; try done. by apply body_raise in Hb. }
  destruct (decide (k < 6)) as [Hk6|Hk6].
  - specialize (Hlt Hk6). repeat split; try apply Hlt; [by left|exact Hloop].
  - assert (k = 6) as Hk6' by lia.
    destruct (Hsix Hk6') as (d & old & res & n & Hl & Hsd & Hr & Ho & -> & Hout).
    split; [intros H; by destruct (H (VDict d))|].
    split; [intros H; destruct (H _ sd Hl); simpl; by rewrite Hsd|].
    split; [intros H; by destruct (H n res)|].
    split; [|exact Hloop].
    right. exists d, old, res, sd. cbv zeta.
    split; [exact Hl|]. split; [exact Ho|]. split; [exact Hout|].
    rewrite Hout. unfold torch_save, after_calls, log. cbn [fs trace].
    destruct (torch_save_failure E _ _ (fs w)) as [[e [bytes|]]|]; [done..|].
    intros _. cbn [snd]. f_equal. unfold Pgd.evaluation_trace.
    cbn [firstn take]. by rewrite <- app_assoc.
Qed.

End PgdClaims.

Lemma pgd_appends_one_record_witness :
  Pgd.experiments !! 0%nat = Some c0 ∧
  run0 = (Ok tt, run0.2) ∧
  run1 = (Ok tt, run1.2) ∧
  ∃ r r2,
    fs run1.2 !! "dm_torch/mnist-small-0.03.pth" =
      Some (Pickle (VDict (<["PGD" := VList [r; r2]]>
                             {[ "state_dict" := VDict ∅ ]}))) ∧
    getitem r "epsilon" = Ok (VFloat 0.1) ∧
    getitem r2 "epsilon" = Ok (VFloat 0.2).
Proof.
  assert (H0 : Pgd.experiments !! 0%nat = Some c0) by (vm_compute; reflexivity).
  assert (H1 : Pgd.experiments !! 1%nat = Some c1) by (vm_compute; reflexivity).
  assert (R0 : run0 = (Ok tt, run0.2)) by (vm_compute; reflexivity).
  assert (R1 : run1 = (Ok tt, run1.2)) by (vm_compute; reflexivity).
  split; [exact H0|]. split; [exact R0|]. split; [exact R1|].
  destruct (pgd_appends_one_record toy_env 0 c0 VNone (VInt 1) VNone
              toy_world run0.2 H0 R0) as (d & old & res & Hl & Ho & Hf & Hnext).
  assert (Hsame : Pgd.checkpoint_file c1 = Pgd.checkpoint_file c0)
    by (vm_compute; reflexivity).
  assert (Hpath : Pgd.checkpoint_file c0 = "dm_torch/mnist-small-0.03.pth")
    by (vm_compute; reflexivity).
  destruct (Hnext 1%nat c1 VNone (VInt 1) VNone run1.2 H1 Hsame R1)
    as (res2 & Hf2 & He & He2).
  rewrite Hpath in Hl, Hf2.
  assert (Hd : d = {[ "state_dict" := VDict ∅ ]}).
  { unfold toy_world in Hl. cbn [fs] in Hl. rewrite lookup_singleton_eq in Hl.
    congruence. }
  assert (Hold : old = []).
  { destruct Ho as [[_ Ho]|Ho]; [exact Ho|]. rewrite Hd in Ho.
    rewrite lookup_singleton_ne in Ho; [discriminate Ho|discriminate]. }
  eexists _, _. rewrite Hf2, Hd, Hold.
  split; [apply lookup_insert_eq|]. split; [exact He|exact He2].
Defined.

(** * The command line *)

Section CommandLine.
Context (E : env).

Lemma find_option_Some decls name d :
  find_option decls name = Some d →
  d ∈ decls ∧ name ∈ names d ++ off_names d.
Proof.
  unfold find_option. intros [Hin Hn]%find_some. split.
  - by apply list_elem_of_In.
  - by apply bool_decide_eq_true in Hn.
Qed.

Lemma find_dest decls d :
  declared_once decls d →
  find (λ d', String.eqb (dest d') (dest d)) decls = Some d.
Proof.
  intros [Hin Hu].
  destruct (find _ decls) as [d'|] eqn:Hf.
  - apply find_some in Hf as [Hin' He]. apply String.eqb_eq in He.
    f_equal. apply Hu; [by apply list_elem_of_In|done].
  - apply list_elem_of_In in Hin.
    apply (find_none _ _ Hf) in Hin. by rewrite String.eqb_refl in Hin.
Qed.

Lemma processing_order_subset decls seen d :
  d ∈ processing_order decls seen → d ∈ decls.
Proof.
  unfold processing_order. intros [H|H]%elem_of_app.
  - apply list_elem_of_omap in H as (n & _ & Hf).
    apply find_some in Hf as [Hin _]. by apply list_elem_of_In.
  - by apply list_elem_of_filter in H as [_ H].
Qed.

Lemma processing_order_complete decls seen d :
  declared_once decls d → d ∈ processing_order decls seen.
Proof.
  intros Hd. unfold processing_order.
  set (first := reverse _).
  destruct (decide (dest d ∈ first)) as [Hin|Hout]; apply elem_of_app.
  - left. apply list_elem_of_omap. exists (dest d). split; [done|].
    by apply find_dest.
  - right. apply list_elem_of_filter. split; [done|apply Hd].
Qed.

Lemma convert_all_ok ds seen kw0 kw :
  convert_all E ds seen kw0 = inr kw →
  ∀ name,
    (∃ d v, d ∈ ds ∧ dest d = name ∧ param_value E d seen = inr v
            ∧ kw !! name = Some v)
    ∨ ((∀ d, d ∈ ds → dest d ≠ name) ∧ kw !! name = kw0 !! name).
Proof.
  revert kw0. induction ds as [|d ds IH]; intros kw0; simpl.
  - intros [= <-] name. right. split; [|done]. by intros d ?%elem_of_nil.
  - destruct (param_value E d seen) as [e|v] eqn:Hv; [done|].
    intros H name. destruct (IH _ H name) as [(d' & v' & Hin & ? & ? & ?)|[Hno Hkw]].
    + left. exists d', v'. repeat split; try done. by right.
    + destruct (decide (dest d = name)) as [<-|Hne].
      * left. exists d, v. rewrite Hkw, lookup_insert_eq.
        repeat split; try done. by left.
      * right. rewrite Hkw, lookup_insert_ne by done. split; [|done].
        intros d' [->|Hin]%elem_of_cons; [done|by apply Hno].
Qed.

(** The keyword arguments hold, for each parameter, its converted value. *)
Lemma make_kwargs_lookup decls argv kw d :
  make_kwargs E decls argv = inr (Kwargs kw) →
  declared_once decls d →
  ∃ seen v, parse_args decls argv = inr seen ∧ given seen "help" = None ∧
            param_value E d seen = inr v ∧ kw !! dest d = Some v.
Proof.
  unfold make_kwargs. intros H Hd.
  destruct (parse_args decls argv) as [?|seen]; [done|].
  destruct (given seen "help") eqn:Hh; [done|].
  destruct (convert_all _ _ seen ∅) as [?|kw'] eqn:Hc; [done|].
  injection H as <-. exists seen.
  destruct (convert_all_ok _ _ _ _ Hc (dest d))
    as [(d' & v & Hin & He & Hv & Hkw)|[Hno _]].
  - apply processing_order_subset in Hin.
    assert (d' = d) as -> by by apply Hd. by exists v.
  - exfalso. apply (Hno d); [by apply processing_order_complete|done].
Qed.

(** A command line is accepted, asks for help or is a usage error. *)
Lemma run_command_cases name decls callback argv w :
  (∃ kw, make_kwargs E decls argv = inr (Kwargs kw) ∧
         run_command E name decls callback argv w = callback kw w)
  ∨ (∃ e, run_command E name decls callback argv w = (Raise (UsageError e), w))
  ∨ run_command E name decls callback argv w =
      (Raise (SystemExit 0), log (Stdout_help name) w).
Proof.
  unfold run_command. destruct (make_kwargs E decls argv) as [e|[|kw]].
  - right. left. by exists e.
  - by right; right.
  - left. by exists kw.
Qed.

Lemma parse_args_error decls argv tok e :
  tok ∈ argv → parse_token decls tok = inl e →
  ∃ e', parse_args decls argv = inl e'.
Proof.
  induction argv as [|t argv IH]; [by intros ?%elem_of_nil|].
  intros [->|Hin]%elem_of_cons He; simpl.
  - rewrite He. by eexists.
  - destruct (parse_token decls t); [by eexists|].
    destruct (IH Hin He) as [e' ->]. by eexists.
Qed.

(** The value given for a valued option is the word written last for it. *)
Lemma given_last_value decls d argv seen :
  parse_args decls argv = inr seen →
  declared_once decls d →
  is_flag d = false → off_names d = [] → dest d ≠ "help" →
  (∀ n, n ∈ names d → find_option decls n = Some d) →
  given seen (dest d) = FromArgv <$> last_value (names d) argv.
Proof.
  intros Hp [Hin Hu] Hflag Hoff Hhelp Hnames. revert seen Hp.
  induction argv as [|tok argv IH]; intros seen; simpl.
  - by intros [= <-].
  - destruct (parse_token decls tok) as [?|[k r]] eqn:Ht; [done|].
    destruct (parse_args decls argv) as [?|rest]; [done|].
    intros [= <-]. simpl. rewrite (IH rest eq_refl).
    destruct (last_value (names d) argv); [done|]. simpl.
    destruct tok as [name|name wd]; simpl in Ht.
    + destruct (String.eqb name "--help").
      { injection Ht as <- <-.
        destruct (String.eqb_spec "help" (dest d)); [by subst|done]. }
      destruct (find_option decls name) as [d'|] eqn:Hf; [|done].
      destruct (is_flag d') eqn:Hf'; [|done]. injection Ht as <- <-.
      destruct (String.eqb_spec (dest d') (dest d)) as [He|]; [|done].
      apply find_option_Some in Hf as [Hin' _].
      rewrite (Hu d' Hin' He) in Hf'. congruence.
    + destruct (find_option decls name) as [d'|] eqn:Hf; [|done].
      destruct (is_flag d') eqn:Hf'; [done|]. injection Ht as <- <-.
      case_bool_decide as Hn.
      * rewrite (Hnames _ Hn) in Hf. injection Hf as <-.
        by rewrite String.eqb_refl.
      * destruct (String.eqb_spec (dest d') (dest d)) as [He|]; [|done].
        apply find_option_Some in Hf as [Hin' Hn'].
        rewrite (Hu d' Hin' He), Hoff, app_nil_r in Hn'. done.
Qed.

(** The value given for a flag is the switch written last for it. *)
Lemma given_last_switch decls d argv seen :
  parse_args decls argv = inr seen →
  declared_once decls d →
  is_flag d = true → dest d ≠ "help" →
  "--help" ∉ names d ++ off_names d →
  (∀ n, n ∈ names d ++ off_names d → find_option decls n = Some d) →
  given seen (dest d) =
    (λ n, FromFlag (bool_decide (n ∈ names d)))
      <$> last_switch (names d ++ off_names d) argv.
Proof.
  intros Hp [Hin Hu] Hflag Hhelp Hnohelp Hnames. revert seen Hp.
  induction argv as [|tok argv IH]; intros seen; simpl.
  - by intros [= <-].
  - destruct (parse_token decls tok) as [?|[k r]] eqn:Ht; [done|].
    destruct (parse_args decls argv) as [?|rest]; [done|].
    intros [= <-]. simpl. rewrite (IH rest eq_refl).
    destruct (last_switch _ argv); [done|]. simpl.
    destruct tok as [name|name wd]; simpl in Ht.
    + destruct (String.eqb_spec name "--help") as [->|Hnh].
      { injection Ht as <- <-. rewrite bool_decide_false by done.
        destruct (String.eqb_spec "help" (dest d)); [by subst|done]. }
      destruct (find_option decls name) as [d'|] eqn:Hf; [|done].
      destruct (is_flag d') eqn:Hf'; [|done]. injection Ht as <- <-.
      destruct (bool_decide_reflect (name ∈ names d ++ off_names d))
        as [Hn|Hn].
      * rewrite (Hnames _ Hn) in Hf. injection Hf as <-.
        by rewrite String.eqb_refl.
      * destruct (String.eqb_spec (dest d') (dest d)) as [He|]; [|done].
        apply find_option_Some in Hf as [Hin' Hn'].
        by rewrite (Hu d' Hin' He) in Hn'.
    + destruct (find_option decls name) as [d'|] eqn:Hf; [|done].
      destruct (is_flag d') eqn:Hf'; [done|]. injection Ht as <- <-.
      destruct (String.eqb_spec (dest d') (dest d)) as [He|]; [|done].
      apply find_option_Some in Hf as [Hin' _].
      rewrite (Hu d' Hin' He) in Hf'. congruence.
Qed.

Lemma given_help decls argv seen r :
  parse_args decls argv = inr seen →
  (∀ d, d ∈ decls → dest d ≠ "help") →
  given seen "help" = Some r → Switch "--help" ∈ argv.
Proof.
  intros Hp Hd. revert seen Hp.
  induction argv as [|tok argv IH]; intros seen; simpl.
  - by intros [= <-].
  - destruct (parse_token decls tok) as [?|[k r']] eqn:Ht; [done|].
    destruct (parse_args decls argv) as [?|rest]; [done|].
    intros [= <-]. simpl.
    destruct (given rest "help") eqn:Hg.
    { intros [= ->]. right. by eapply IH. }
    destruct (String.eqb_spec k "help") as [->|]; [|done].
    intros _. destruct tok as [name|name wd]; simpl in Ht.
    + destruct (String.eqb_spec name "--help") as [->|]; [by left|].
      destruct (find_option decls name) as [d'|] eqn:Hf; [|done].
      destruct (is_flag d'); [|done]. injection Ht as Hk _.
      apply find_option_Some in Hf as [Hin _]. by apply Hd in Hin.
    + destruct (find_option decls name) as [d'|] eqn:Hf; [|done].
      destruct (is_flag d'); [done|]. injection Ht as Hk _.
      apply find_option_Some in Hf as [Hin _]. by apply Hd in Hin.
Qed.

(** A command line without [--help] is accepted or is a usage error. *)
Lemma run_command_no_help name decls callback argv w :
  (∀ d, d ∈ decls → dest d ≠ "help") →
  Switch "--help" ∉ argv →
  (∃ kw, make_kwargs E decls argv = inr (Kwargs kw) ∧
         run_command E name decls callback argv w = callback kw w)
  ∨ (∃ e, run_command E name decls callback argv w = (Raise (UsageError e), w)).
Proof.
  intros Hd Hno. unfold run_command, make_kwargs.
  destruct (parse_args decls argv) as [e|seen] eqn:Hp; [right; by exists e|].
  destruct (given seen "help") eqn:Hg.
  { destruct Hno. by eapply given_help. }
  destruct (convert_all _ _ seen ∅) as [e|kw]; [right; by exists e|].
  left. by exists kw.
Qed.

End CommandLine.

(** ** The declarations of [basic], [experiment] and [pgd] *)

Ltac cases_in H :=
  repeat (apply elem_of_cons in H as [->|H]); [..|by apply elem_of_nil in H].

Ltac solve_in := repeat first [by left | right].

Ltac solve_declared_once :=
  split;
  [ unfold basic_params, Experiment.params, Pgd.params; solve_in
  | let d' := fresh "d" in let Hd := fresh "Hd" in let He := fresh "He" in
    intros d' Hd He; cases_in Hd; first [reflexivity | by vm_compute in He] ].

Ltac solve_names :=
  let n := fresh "n" in let Hn := fresh "Hn" in
  intros n Hn; cases_in Hn; vm_compute; reflexivity.

Lemma basic_float_option d :
  d ∈ [opt_learning_rate; opt_momentum; opt_weight_decay; opt_epsilon] →
  declared_once basic_params d ∧ is_flag d = false ∧ off_names d = [] ∧
  dest d ≠ "help" ∧ (∀ n, n ∈ names d → find_option basic_params n = Some d).
Proof.
  intros Hd. cases_in Hd.
  all: split; [solve_declared_once|].
  all: do 3 (split; [done|]); solve_names.
Qed.

Lemma basic_mode_flag :
  declared_once basic_params opt_evaluate_only ∧
  (∀ n, n ∈ names opt_evaluate_only ++ off_names opt_evaluate_only →
        find_option basic_params n = Some opt_evaluate_only).
Proof. split; [solve_declared_once|solve_names]. Qed.

Lemma run_flag decls :
  decls = [opt_run; opt_index] →
  declared_once decls opt_run ∧
  (∀ n, n ∈ names opt_run ++ off_names opt_run →
        find_option decls n = Some opt_run).
Proof. intros ->. split; [solve_declared_once|solve_names]. Qed.

Lemma basic_no_help_param d : d ∈ basic_params → dest d ≠ "help".
Proof. intros Hd. cases_in Hd; done. Qed.

Lemma run_index_no_help d : d ∈ [opt_run; opt_index] → dest d ≠ "help".
Proof. intros Hd. cases_in Hd; done. Qed.

(** The value of a float option of [basic] on an accepted command line. *)
Lemma basic_float_value (E : env) argv kw d wd :
  d ∈ [opt_learning_rate; opt_momentum; opt_weight_decay; opt_epsilon] →
  make_kwargs E basic_params argv = inr (Kwargs kw) →
  last_value (names d) argv = Some wd →
  ∃ v, convert E (type d) (FromArgv wd) = Some v ∧ kw !! dest d = Some v.
Proof.
  intros (Hd & Hflag & Hoff & Hhelp & Hnames)%basic_float_option Hk Hl.
  destruct (make_kwargs_lookup E _ _ _ d Hk Hd) as (seen & v & Hp & _ & Hv & Hkw).
  exists v. split; [|done].
  unfold param_value in Hv.
  rewrite (given_last_value _ _ _ _ Hp Hd Hflag Hoff Hhelp Hnames), Hl in Hv.
  simpl in Hv. destruct (convert E (type d) (FromArgv wd)); [|done].
  by injection Hv as <-.
Qed.

(** X16: [basic] rejects a command line whose learning rate, momentum or
    weight decay is below zero with a usage error, before
    [train_classifier] is called; the epsilon written last is passed on as
    the float it reads as. *)
Theorem basic_rejects_negative_rates (E : env) (argv : list token) (w : world) :
  (∀ d wd f,
     d ∈ [opt_learning_rate; opt_momentum; opt_weight_decay] →
     last_value (names d) argv = Some wd →
     to_float (FromArgv wd) = Some f →
     PrimFloat.ltb f 0 = true →
     Switch "--help" ∉ argv →
     ∃ e, main_basic E argv w = (Raise (UsageError e), w)) ∧
  (∀ wd f kw,
     last_value (names opt_epsilon) argv = Some wd →
     to_float (FromArgv wd) = Some f →
     make_kwargs E basic_params argv = inr (Kwargs kw) →
     kw !! "epsilon" = Some (VFloat f) ∧
     main_basic E argv w = basic E kw w).
Proof.
  split.
  - intros d wd f Hd Hl Hf Hneg Hnohelp.
    destruct (run_command_no_help E "basic" basic_params (basic E) argv w
                basic_no_help_param Hnohelp) as [(kw & Hk & _)|He]; [|done].
    exfalso.
    assert (Hd' : d ∈ [opt_learning_rate; opt_momentum; opt_weight_decay;
                       opt_epsilon]) by (cases_in Hd; solve_in).
    destruct (basic_float_value E _ _ _ _ Hd' Hk Hl) as (v & Hv & _).
    cases_in Hd; simpl in Hv, Hf; rewrite Hf in Hv; simpl in Hv;
      by rewrite Hneg in Hv.
  - intros wd f kw Hl Hf Hk.
    assert (Hd : opt_epsilon ∈ [opt_learning_rate; opt_momentum;
                                opt_weight_decay; opt_epsilon]) by solve_in.
    destruct (basic_float_value E _ _ _ _ Hd Hk Hl) as (v & Hv & Hkw).
    simpl in Hv, Hf. rewrite Hf in Hv. injection Hv as <-.
    split; [done|]. unfold main_basic, run_command. by rewrite Hk.
Qed.

Lemma basic_rejects_negative_rates_witness :
  (∃ e, main_basic toy_env negative_lr empty_world
        = (Raise (UsageError e), empty_world)) ∧
  (∃ kw, make_kwargs toy_env basic_params negative_epsilon = inr (Kwargs kw) ∧
         kw !! "epsilon" = Some (VFloat (-0.5))).
Proof.
  destruct (basic_rejects_negative_rates toy_env negative_lr empty_world)
    as [Hrates _].
  destruct (basic_rejects_negative_rates toy_env negative_epsilon empty_world)
    as [_ Heps].
  split.
  - apply (Hrates opt_learning_rate (Word "-1" (RInt (-1))) (-1)%float).
    + solve_in.
    + reflexivity.
    + reflexivity.
    + reflexivity.
    + unfold negative_lr. by intros [=]%list_elem_of_singleton.
  - destruct (make_kwargs toy_env basic_params negative_epsilon)
      as [e|[|kw]] eqn:Hk;
      [by vm_compute in Hk..|].
    exists kw. split; [done|].
    by apply (Heps (Word "-0.5" (RFloat (-0.5))) (-0.5)%float kw).
Defined.

(** C2: the claim fails for epsilon, which is declared without the
    minimum of its three sibling options: [ibp basic --epsilon -0.5] is
    accepted and [train_classifier] is called with epsilon -0.5, where the
    same word for the learning rate, the momentum or the weight decay is a
    usage error. *)
Theorem basic_accepts_negative_epsilon :
  let minus_half := Word "-0.5" (RFloat (-0.5)) in
  let out := main_basic toy_env [Value "--epsilon" minus_half] empty_world in
  PrimFloat.ltb (-0.5) 0 = true ∧
  out.1 = Ok tt ∧
  (∃ kw, trace out.2 = [Call_train_classifier kw] ∧
         kw !! "epsilon" = Some (VFloat (-0.5))) ∧
  type opt_epsilon = FloatRange None None ∧
  type opt_learning_rate = FloatRange (Some 0%float) None ∧
  main_basic toy_env [Value "--learning-rate" minus_half] empty_world
    = (Raise (UsageError (BadParameter "learning_rate")), empty_world) ∧
  main_basic toy_env [Value "--momentum" minus_half] empty_world
    = (Raise (UsageError (BadParameter "momentum")), empty_world) ∧
  main_basic toy_env [Value "--weight-decay" minus_half] empty_world
    = (Raise (UsageError (BadParameter "weight_decay")), empty_world).
Proof.
  cbv zeta. split; [reflexivity|]. split; [vm_compute; reflexivity|].
  split.
  { eexists. split; [vm_compute; reflexivity|vm_compute; reflexivity]. }
  repeat split; vm_compute; reflexivity.
Qed.

Section Calls.
Context (E : env).

(** Every call of [compute_robustness] made by [pgd] carries the restarts,
    subset and seed that [pgd] was given. *)
Lemma pgd_calls run index subset restarts seed w r w' a :
  Pgd.pgd E run index subset restarts seed w = (r, w') →
  Call_compute_robustness a ∈ trace w' →
  Call_compute_robustness a ∈ trace w ∨
  (ra_restarts a = restarts ∧ ra_subset a = subset ∧ ra_subset_seed a = seed).
Proof.
  unfold Pgd.pgd. intros Hp.
  eapply (for_each_invariant (λ w1,
    Call_compute_robustness a ∈ trace w1 →
    Call_compute_robustness a ∈ trace w ∨
    (ra_restarts a = restarts ∧ ra_subset a = subset
     ∧ ra_subset_seed a = seed))); [|by left|exact Hp].
  intros [j c] w1 r1 w2 _ IH. unfold Pgd.body.
  destruct (skipped index j); [by intros [= _ <-]|].
  unfold bind, print, call. destruct run; [|intros [= _ <-]]; simpl.
  - intros (sd & saved & k & ->)%evaluate_trace. simpl.
    rewrite !elem_of_app. intros [[Hin|Hin]|Hin].
    + by apply IH.
    + by apply list_elem_of_singleton in Hin.
    + apply (subseteq_take k) in Hin.
      unfold Pgd.evaluation_trace in Hin.
      repeat (apply elem_of_cons in Hin as [Hin|Hin]; [try done|]);
        [|by apply elem_of_nil in Hin].
      injection Hin as ->. by right.
  - rewrite elem_of_app. intros [Hin|Hin%list_elem_of_singleton];
      [by apply IH|done].
Qed.

Lemma pgd_main_calls argv w a :
  Call_compute_robustness a ∈ trace (Pgd.main E argv w).2 →
  Call_compute_robustness a ∈ trace w ∨
  (ra_restarts a = VInt 1 ∧ ra_subset a = VNone ∧ ra_subset_seed a = VNone).
Proof.
  unfold Pgd.main.
  destruct (run_command_cases E "pgd" Pgd.params
              (λ kwargs, Pgd.pgd E (kw_bool kwargs "run")
                           (kw_int kwargs "index") VNone (VInt 1) VNone)
              argv w) as [(kw & _ & ->)|[[e ->]| ->]]; simpl.
  - destruct (Pgd.pgd _ _ _ _ _ _ w) as [r w'] eqn:Hp. simpl.
    by eapply pgd_calls.
  - by left.
  - rewrite elem_of_app. intros [Hin|Hin%list_elem_of_singleton];
      [by left|done].
Qed.

Lemma pgd_unknown_name tok :
  token_name tok ∉ ["-r"; "--run"; "-s"; "--show"; "--index"; "-i"; "--help"] →
  ∃ e, parse_token Pgd.params tok = inl e.
Proof.
  intros Hn.
  assert (Hf : find_option Pgd.params (token_name tok) = None).
  { unfold find_option, Pgd.params. simpl.
    rewrite !bool_decide_false; [done|..];
      intros Hin; apply Hn; cases_in Hin; solve_in. }
  destruct tok as [name|name wd]; simpl in *.
  - destruct (String.eqb_spec name "--help") as [->|_].
    { destruct Hn. solve_in. }
    rewrite Hf. by eexists.
  - rewrite Hf. by eexists.
Qed.

(** C4, amended: the command surface of [pgd] has the options run/show and
    index and no other; an invocation from the command line always calls
    [compute_robustness] with restarts 1 and with subset and seed None (the
    whole evaluation set); restarts, subset and seed are parameters of the
    function only, passed on unchanged when a caller supplies them. *)
Theorem pgd_surface_fixes_attack_parameters (argv : list token) (w : world) :
  (∀ a, Call_compute_robustness a ∈ trace (Pgd.main E argv w).2 →
        Call_compute_robustness a ∈ trace w ∨
        (ra_restarts a = VInt 1 ∧ ra_subset a = VNone
         ∧ ra_subset_seed a = VNone)) ∧
  (∀ tok,
     tok ∈ argv →
     token_name tok ∉
       ["-r"; "--run"; "-s"; "--show"; "--index"; "-i"; "--help"] →
     ∃ e, Pgd.main E argv w = (Raise (UsageError e), w)) ∧
  (∀ (i : nat) c subset restarts seed w',
     Pgd.experiments !! i = Some c →
     Pgd.pgd E true (Some (Z.of_nat i)) subset restarts seed w = (Ok tt, w') →
     ∃ a, Call_compute_robustness a ∈ trace w' ∧
          ra_restarts a = restarts ∧ ra_subset a = subset ∧
          ra_subset_seed a = seed).
Proof.
  split; [intros a; apply pgd_main_calls|]. split.
  - intros tok Hin [e He]%pgd_unknown_name.
    destruct (parse_args_error _ _ _ _ Hin He) as [e' Hp].
    exists e'. unfold Pgd.main, run_command, make_kwargs. by rewrite Hp.
  - intros i c subset restarts seed w' Hc
      (d & sd & res & old & n & _ & _ & _ & _ & ->)%(pgd_run_ok _ _ c); [|done].
    exists (Pgd.attack_args E (Pgd.dataset_of c) (Pgd.test_epsilon_of c)
              subset restarts seed).
    split; [|done]. simpl.
    apply elem_of_app. right. right. unfold Pgd.evaluation_trace. solve_in.
Qed.

End Calls.

Lemma pgd_surface_fixes_attack_parameters_witness :
  (∃ e, Pgd.main toy_env with_restarts toy_world
        = (Raise (UsageError e), toy_world)) ∧
  (∃ a, Call_compute_robustness a
          ∈ trace (Pgd.pgd toy_env true (Some 0%Z) (VInt 100) (VInt 5)
                     (VInt 7) toy_world).2
        ∧ ra_restarts a = VInt 5 ∧ ra_subset a = VInt 100
        ∧ ra_subset_seed a = VInt 7).
Proof.
  destruct (pgd_surface_fixes_attack_parameters toy_env with_restarts
              toy_world) as (_ & Hnames & _).
  destruct (pgd_surface_fixes_attack_parameters toy_env run_first
              toy_world) as (_ & _ & Hpass).
  split.
  - apply (Hnames (Value "--restarts" (Word "5" (RInt 5)))).
    + unfold with_restarts. solve_in.
    + simpl. intros Hin.
      repeat (apply elem_of_cons in Hin as [Hin|Hin]; [discriminate|]).
      by apply elem_of_nil in Hin.
  - apply (Hpass 0%nat c0 (VInt 100) (VInt 5) (VInt 7)).
    + vm_compute; reflexivity.
    + vm_compute; reflexivity.
Defined.

(** The claim C4 fails: no command line makes [pgd] attack with restarts,
    a subset or a seed other than the defaults, and [--restarts],
    [--subset] and [--seed] are not options. *)
Lemma pgd_restarts_subset_seed_not_settable :
  (∀ argv a,
     Call_compute_robustness a ∈ trace (Pgd.main toy_env argv toy_world).2 →
     ra_restarts a = VInt 1 ∧ ra_subset a = VNone ∧
     ra_subset_seed a = VNone) ∧
  (∃ a, Call_compute_robustness a
          ∈ trace (Pgd.main toy_env run_first toy_world).2) ∧
  Pgd.main toy_env with_restarts toy_world
    = (Raise (UsageError (NoSuchOption "--restarts")), toy_world) ∧
  Pgd.main toy_env [Value "--subset" (Word "100" (RInt 100))] toy_world
    = (Raise (UsageError (NoSuchOption "--subset")), toy_world) ∧
  Pgd.main toy_env [Value "--seed" (Word "7" (RInt 7))] toy_world
    = (Raise (UsageError (NoSuchOption "--seed")), toy_world).
Proof.
  split.
  { intros argv a [Hin|H]%pgd_main_calls; [|done].
    by apply elem_of_nil in Hin. }
  split.
  { eexists. vm_compute. do 5 right. left. }
  repeat split; vm_compute; reflexivity.
Qed.

(** ** [experiment] on one configuration *)

Section ExperimentFacts.
Context (E : env).

Lemma experiment_selected run (i : nat) w :
  Experiment.experiment E run (Some (Z.of_nat i)) w =
    match Experiment.grid !! i with
    | Some c =>
        bind (print (pretty i +:+ " " +:+ Experiment.command c))
          (λ _, if run then invoke_basic E (Experiment.invocation c)
                else ret tt) w
    | None => (Ok tt, w)
    end.
Proof.
  unfold Experiment.experiment, enumerate.
  rewrite (for_each_selected _ i);
    [|intros j c w' Hj; unfold Experiment.body; by rewrite skipped_other|lia].
  rewrite Nat.sub_0_r. destruct (Experiment.grid !! i); [|done].
  unfold Experiment.body. by rewrite skipped_same.
Qed.

Lemma invocation_lookup c :
  let kw := Experiment.invocation c ∪ defaults basic_params in
  kw !! "evaluate_only" = Some (VBool false) ∧
  kw !! "dataset" = Some (VStr c.1.1.1) ∧
  kw !! "epsilon" = Some (VFloat c.1.1.2) ∧
  kw !! "learning_rate" = Some (VFloat c.1.2) ∧
  kw !! "model" = Some (VStr c.2) ∧
  kw !! "log_dir" = Some (VStr (Experiment.directory c)) ∧
  kw !! "checkpoint"
    = Some (VStr (Experiment.directory c +:+ "/checkpoint.pth")).
Proof.
  destruct c as [[[dataset epsilon] learning_rate] model].
  unfold Experiment.invocation.
  generalize (Experiment.directory (dataset, epsilon, learning_rate, model)).
  intros dir. cbv zeta.
  repeat split; apply lookup_union_Some_l; reflexivity.
Qed.

Lemma basic_trace kw w :
  trace (basic E kw w).2 = trace w ++ [Call_train_classifier kw].
Proof. unfold basic. by destruct (train_classifier E kw (fs w)). Qed.

(** C6: for the configuration at position [i] of the grid, the log
    directory is dataset-model-epsilon/learning_rate and the checkpoint path
    is that directory followed by /checkpoint.pth, in the line printed and
    in the keyword arguments [basic] is invoked with. *)
Theorem experiment_paths (run : bool) (i : nat) (dataset model : string)
    (epsilon learning_rate : float) (w : world) :
  Experiment.grid !! i = Some (dataset, epsilon, learning_rate, model) →
  let dir := dataset +:+ "-" +:+ model +:+ "-" +:+ float_repr epsilon
               +:+ "/" +:+ float_repr learning_rate in
  let printed :=
    Stdout (pretty i +:+ " ibp basic --train -d " +:+ dataset +:+ " -m "
              +:+ model +:+ " -e " +:+ float_repr epsilon +:+ " -lr "
              +:+ float_repr learning_rate +:+ " -l " +:+ dir +:+ " -c "
              +:+ dir +:+ "/checkpoint.pth") in
  ∃ kw,
    trace (Experiment.experiment E run (Some (Z.of_nat i)) w).2 =
      trace w ++ printed :: (if run then [Call_train_classifier kw] else []) ∧
    kw !! "log_dir" = Some (VStr dir) ∧
    kw !! "checkpoint" = Some (VStr (dir +:+ "/checkpoint.pth")) ∧
    kw !! "dataset" = Some (VStr dataset) ∧
    kw !! "model" = Some (VStr model) ∧
    kw !! "epsilon" = Some (VFloat epsilon) ∧
    kw !! "learning_rate" = Some (VFloat learning_rate).
Proof.
  intros Hc dir printed. rewrite experiment_selected.
  unfold Experiment.config in *. rewrite Hc.
  set (c := (dataset, epsilon, learning_rate, model)).
  exists (Experiment.invocation c ∪ defaults basic_params).
  destruct (invocation_lookup c) as (_ & ? & ? & ? & ? & ? & ?).
  split; [|by repeat split].
  unfold bind, print, call. destruct run.
  - unfold invoke_basic. rewrite basic_trace. simpl.
    by rewrite <- app_assoc.
  - done.
Qed.

(** Every call of [train_classifier] made by [experiment] is in training
    mode. *)
Lemma experiment_calls run index w r w' kw :
  Experiment.experiment E run index w = (r, w') →
  Call_train_classifier kw ∈ trace w' →
  Call_train_classifier kw ∈ trace w ∨
  kw !! "evaluate_only" = Some (VBool false).
Proof.
  unfold Experiment.experiment. intros Hp.
  eapply (for_each_invariant (λ w1,
    Call_train_classifier kw ∈ trace w1 →
    Call_train_classifier kw ∈ trace w ∨
    kw !! "evaluate_only" = Some (VBool false))); [|by left|exact Hp].
  intros [j c] w1 r1 w2 _ IH. unfold Experiment.body.
  destruct (skipped index j); [by intros [= _ <-]|].
  unfold bind, print, call. destruct run; [|intros [= _ <-]]; simpl.
  - intros Hb. pose proof (basic_trace
      (Experiment.invocation c ∪ defaults basic_params)
      (log (Stdout (pretty j +:+ " " +:+ Experiment.command c)) w1)) as Ht.
    unfold invoke_basic in Hb. rewrite Hb in Ht. simpl in Ht. rewrite Ht.
    rewrite !elem_of_app. intros [[Hin|Hin]|Hin].
    + by apply IH.
    + by apply list_elem_of_singleton in Hin.
    + apply list_elem_of_singleton in Hin. injection Hin as ->.
      right. apply invocation_lookup.
  - rewrite elem_of_app. intros [Hin|Hin%list_elem_of_singleton];
      [by apply IH|done].
Qed.

End ExperimentFacts.

(** The value of a flag on an accepted command line. *)
Lemma flag_value (E : env) decls d argv kw :
  make_kwargs E decls argv = inr (Kwargs kw) →
  declared_once decls d →
  is_flag d = true → dest d ≠ "help" →
  "--help" ∉ names d ++ off_names d →
  (∀ n, n ∈ names d ++ off_names d → find_option decls n = Some d) →
  ∃ v, kw !! dest d = Some v ∧
       param_value E d
         (from_option (λ n, [(dest d, FromFlag (bool_decide (n ∈ names d)))])
            [] (last_switch (names d ++ off_names d) argv)) = inr v.
Proof.
  intros Hk Hd Hflag Hhelp Hnohelp Hnames.
  destruct (make_kwargs_lookup E _ _ _ d Hk Hd) as (seen & v & Hp & _ & Hv & Hkw).
  exists v. split; [done|]. rewrite <- Hv. unfold param_value.
  rewrite (given_last_switch _ _ _ _ Hp Hd Hflag Hhelp Hnohelp Hnames).
  destruct (last_switch _ argv); simpl; [|done].
  by rewrite String.eqb_refl.
Qed.

Lemma not_help_switch (l : list string) :
  forallb (λ n, negb (String.eqb n "--help")) l = true → "--help" ∉ l.
Proof.
  intros H Hin. apply list_elem_of_In in Hin.
  rewrite forallb_forall in H. apply H in Hin.
  by rewrite String.eqb_refl in Hin.
Qed.

(** C10: [basic] without a mode flag calls [train_classifier] with
    [evaluate_only] True, the default of the option; the flag written last
    decides otherwise, [--train] or [-t] giving False; [experiment] always
    invokes [basic] with [evaluate_only] False. *)
Theorem basic_validates_by_default (E : env) :
  (∀ argv kw w,
     make_kwargs E basic_params argv = inr (Kwargs kw) →
     main_basic E argv w = basic E kw w ∧
     trace (basic E kw w).2 = trace w ++ [Call_train_classifier kw] ∧
     kw !! "evaluate_only" =
       Some (VBool (match last_switch mode_switches argv with
                    | None => true
                    | Some n => bool_decide (n ∈ ["-v"; "--validate"])
                    end))) ∧
  (∀ run index w kw,
     Call_train_classifier kw
       ∈ trace (Experiment.experiment E run index w).2 →
     Call_train_classifier kw ∈ trace w ∨
     kw !! "evaluate_only" = Some (VBool false)).
Proof.
  split.
  - intros argv kw w Hk.
    split; [unfold main_basic, run_command; by rewrite Hk|].
    split; [apply basic_trace|].
    destruct basic_mode_flag as [Hd Hnames].
    destruct (flag_value E _ opt_evaluate_only _ _ Hk Hd) as (v & Hkw & Hv);
      [done|done|by apply not_help_switch|done|].
    change (dest opt_evaluate_only) with "evaluate_only" in Hkw. rewrite Hkw.
    change (names opt_evaluate_only ++ off_names opt_evaluate_only)
      with mode_switches in Hv.
    destruct (last_switch mode_switches argv); simpl in Hv;
      by injection Hv as <-.
  - intros run index w kw.
    destruct (Experiment.experiment E run index w) as [r w'] eqn:Hx.
    by apply (experiment_calls E run index w r w').
Qed.

Lemma basic_validates_by_default_witness :
  (∃ kw, make_kwargs toy_env basic_params [] = inr (Kwargs kw) ∧
         trace (main_basic toy_env [] empty_world).2
           = [Call_train_classifier kw] ∧
         kw !! "evaluate_only" = Some (VBool true)) ∧
  (∃ kw, make_kwargs toy_env basic_params [Switch "--train"] = inr (Kwargs kw) ∧
         kw !! "evaluate_only" = Some (VBool false)) ∧
  (∀ kw, Call_train_classifier kw
           ∈ trace (Experiment.experiment toy_env true (Some 0%Z)
                      empty_world).2 →
         kw !! "evaluate_only" = Some (VBool false)).
Proof.
  destruct (basic_validates_by_default toy_env) as [Hcli Hexp].
  split; [|split].
  - destruct (make_kwargs toy_env basic_params []) as [e|[|kw]] eqn:Hk;
      [by vm_compute in Hk..|].
    destruct (Hcli [] kw empty_world Hk) as (Hm & Ht & He).
    exists kw. split; [done|]. split; [by rewrite Hm, Ht|exact He].
  - destruct (make_kwargs toy_env basic_params [Switch "--train"]) as [e|[|kw]] eqn:Hk;
      [by vm_compute in Hk..|].
    destruct (Hcli _ kw empty_world Hk) as (_ & _ & He).
    exists kw. split; [done|exact He].
  - intros kw [Hin|H]%Hexp; [by apply elem_of_nil in Hin|done].
Defined.

(** ** Show mode *)

Section Show.
Context (E : env).

Lemma experiment_show index w :
  Experiment.experiment E false index w =
    (Ok tt, {| fs := fs w;
               trace := trace w ++ (Stdout <$> Experiment.shown index) |}).
Proof.
  unfold Experiment.experiment, Experiment.shown.
  rewrite (for_each_print _ (λ ic, negb (skipped index ic.1))
             (λ ic, pretty ic.1 +:+ " " +:+ Experiment.command ic.2)).
  - by rewrite <- list_fmap_compose.
  - intros [j c] w1. unfold Experiment.body. simpl.
    destruct (skipped index j); [done|]. simpl.
    unfold bind, print, call, ret. done.
Qed.

Lemma pgd_show index subset restarts seed w :
  Pgd.pgd E false index subset restarts seed w =
    (Ok tt, {| fs := fs w;
               trace := trace w ++ (Stdout <$> Pgd.shown index) |}).
Proof.
  unfold Pgd.pgd, Pgd.shown.
  rewrite (for_each_print _ (λ ic, negb (skipped index ic.1))
             (λ ic, Pgd.line ic.1 ic.2)).
  - by rewrite <- list_fmap_compose.
  - intros [j c] w1. unfold Pgd.body. simpl.
    destruct (skipped index j); [done|]. simpl.
    unfold bind, print, call, ret. done.
Qed.

Lemma show_by_default decls argv kw :
  decls = [opt_run; opt_index] →
  make_kwargs E decls argv = inr (Kwargs kw) →
  last_switch run_switches argv ∈ [None; Some "-s"; Some "--show"] →
  kw_bool kw "run" = false.
Proof.
  intros Hdecls Hk Hl. destruct (run_flag decls Hdecls) as [Hd Hnames].
  destruct (flag_value E _ opt_run _ _ Hk Hd) as (v & Hv & Hp);
    [done|done|by apply not_help_switch|done|].
  change (names opt_run ++ off_names opt_run) with run_switches in Hp.
  unfold kw_bool. change (dest opt_run) with "run" in Hv. rewrite Hv.
  repeat (apply elem_of_cons in Hl as [Hl|Hl]);
    [..|by apply elem_of_nil in Hl];
    rewrite Hl in Hp; simpl in Hp; by injection Hp as <-.
Qed.

Lemma only_printed_lines w (lines : list string) r :
  only_printed w (r, {| fs := fs w; trace := trace w ++ (Stdout <$> lines) |}).
Proof.
  split; [done|]. exists (Stdout <$> lines). split; [done|].
  apply Forall_fmap. by apply Forall_forall.
Qed.

Lemma run_command_only_printed name decls callback argv w :
  (∀ kw, make_kwargs E decls argv = inr (Kwargs kw) →
         only_printed w (callback kw w)) →
  only_printed w (run_command E name decls callback argv w).
Proof.
  intros Hcb.
  destruct (run_command_cases E name decls callback argv w)
    as [(kw & Hk & ->)|[[e ->]| ->]].
  - by apply Hcb.
  - split; [done|]. exists []. by rewrite app_nil_r.
  - split; [done|]. exists [Stdout_help name]. split; [done|].
    by apply Forall_singleton.
Qed.

(** C8: in show mode [experiment] and [pgd] return after printing the lines
    of the configurations that [index] selects; the files are as before and
    nothing is called: no model is built, no checkpoint loaded or saved, no
    training or attack run.  From the command line, show mode is what runs
    unless [--run] or [-r] is the switch written last. *)
Theorem show_mode_only_prints (index : option Z)
    (subset restarts seed : pyval) (argv : list token) (w : world) :
  Experiment.experiment E false index w =
    (Ok tt, {| fs := fs w;
               trace := trace w ++ (Stdout <$> Experiment.shown index) |}) ∧
  Pgd.pgd E false index subset restarts seed w =
    (Ok tt, {| fs := fs w;
               trace := trace w ++ (Stdout <$> Pgd.shown index) |}) ∧
  (last_switch run_switches argv ∈ [None; Some "-s"; Some "--show"] →
   only_printed w (Experiment.main E argv w) ∧
   only_printed w (Pgd.main E argv w)).
Proof.
  split; [apply experiment_show|]. split; [apply pgd_show|].
  intros Hl. split; apply run_command_only_printed; intros kw Hk.
  - rewrite (show_by_default Experiment.params argv kw eq_refl Hk Hl).
    rewrite experiment_show. apply only_printed_lines.
  - rewrite (show_by_default Pgd.params argv kw eq_refl Hk Hl).
    rewrite pgd_show. apply only_printed_lines.
Qed.

End Show.

Lemma show_mode_only_prints_witness :
  Pgd.main toy_env [Value "-i" (Word "0" (RInt 0))] toy_world
    = (Ok tt, {| fs := fs toy_world;
                 trace := [Stdout "0 MNIST-small-0.03 0 0.1"] |}) ∧
  only_printed toy_world
    (Experiment.main toy_env [Value "-i" (Word "0" (RInt 0))] toy_world).
Proof.
  destruct (show_mode_only_prints toy_env (Some 0%Z) VNone (VInt 1) VNone
              [Value "-i" (Word "0" (RInt 0))] toy_world) as (_ & _ & Hcli).
  split; [vm_compute; reflexivity|].
  apply Hcli. simpl. left.
Defined.

(** C9: the experiments of [pgd] are the tuples of the product, in its
    order, that satisfy the condition on dataset, epsilon and test epsilon;
    an index selects the experiment at that position; with learning rate 0
    the checkpoint is dm_torch/dataset-model-epsilon.pth with the dataset
    in lower case, otherwise the path derived from the directory. *)
Theorem pgd_experiments_enumeration (E : env) :
  Pgd.experiments =
    filter (λ c, Pgd.spec_kept c)
      (product5 Pgd.datasets Pgd.epsilons Pgd.model_size Pgd.learning_rates
         Pgd.test_epsilons) ∧
  (∀ c, c ∈ Pgd.experiments ↔
        c ∈ product5 Pgd.datasets Pgd.epsilons Pgd.model_size
              Pgd.learning_rates Pgd.test_epsilons
        ∧ Pgd.spec_kept c = true) ∧
  (∀ run (i : nat) subset restarts seed w,
     Pgd.pgd E run (Some (Z.of_nat i)) subset restarts seed w =
       match Pgd.experiments !! i with
       | Some c =>
           bind (print (Pgd.line i c))
             (λ _, if run then Pgd.evaluate E c subset restarts seed
                   else ret tt) w
       | None => (Ok tt, w)
       end) ∧
  (∀ dataset epsilon model learning_rate test_epsilon,
     let c := (dataset, epsilon, model, learning_rate, test_epsilon) in
     (number_eqb learning_rate (Int 0) = true →
      Pgd.checkpoint_file c =
        "dm_torch/" +:+ lower dataset +:+ "-" +:+ model +:+ "-"
          +:+ float_repr epsilon +:+ ".pth") ∧
     (number_eqb learning_rate (Int 0) = false →
      Pgd.checkpoint_file c =
        dataset +:+ "-" +:+ model +:+ "_cnn-" +:+ float_repr epsilon
          +:+ "/" +:+ number_str learning_rate +:+ "/checkpoint.pth")) ∧
  remove_dups
    (Pgd.checkpoint_file
       <$> filter (λ c, number_eqb (Pgd.learning_rate_of c) (Int 0))
             Pgd.experiments) =
    [ "dm_torch/mnist-small-0.03.pth"; "dm_torch/mnist-medium-0.03.pth";
      "dm_torch/mnist-small-0.1.pth"; "dm_torch/mnist-medium-0.1.pth";
      "dm_torch/mnist-small-0.2.pth"; "dm_torch/mnist-medium-0.2.pth";
      "dm_torch/cifar10-small-0.01.pth"; "dm_torch/cifar10-medium-0.01.pth" ].
Proof.
  assert (Heq : Pgd.experiments =
    filter (λ c, Pgd.spec_kept c)
      (product5 Pgd.datasets Pgd.epsilons Pgd.model_size Pgd.learning_rates
         Pgd.test_epsilons)) by (vm_compute; reflexivity).
  split; [exact Heq|]. split.
  { intros c. rewrite Heq at 1. rewrite list_elem_of_filter.
    rewrite Is_true_true. tauto. }
  split; [intros; apply pgd_selected|]. split.
  { intros dataset epsilon model learning_rate test_epsilon c.
    unfold c, Pgd.checkpoint_file. split; intros ->; reflexivity. }
  vm_compute. reflexivity.
Qed.

Lemma pgd_experiments_enumeration_witness :
  Pgd.checkpoint_file c0 = "dm_torch/mnist-small-0.03.pth" ∧
  Pgd.checkpoint_file ("CIFAR10", 0.01, "medium", Float 1e-3, 2 / 255)%float
    = "CIFAR10-medium_cnn-0.01/0.001/checkpoint.pth" ∧
  c0 ∈ Pgd.experiments.
Proof.
  destruct (pgd_experiments_enumeration toy_env)
    as (_ & Hmem & _ & Hpath & _).
  split; [|split].
  - destruct (Hpath "MNIST" 0.03 "small" (Int 0) 0.1)%float as [H _].
    unfold c0. rewrite H by reflexivity. vm_compute. reflexivity.
  - destruct (Hpath "CIFAR10" 0.01 "medium" (Float 1e-3) (2 / 255))%float
      as [_ H].
    rewrite H by reflexivity. vm_compute. reflexivity.
  - apply Hmem. split; [|reflexivity].
    apply (list_elem_of_lookup_2 _ 33%nat). vm_compute. reflexivity.
Defined.

Lemma pgd_record_fields_witness :
  Pgd.experiments !! 0%nat = Some c0 ∧
  run0 = (Ok tt, run0.2) ∧
  ∃ d old r res,
    fs run0.2 !! "dm_torch/mnist-small-0.03.pth" = Some (Pickle (VDict d)) ∧
    d !! "PGD" = Some (VList (old ++ [VDict r])) ∧
    dom r = {[ "seed"; "subset"; "restarts"; "epsilon"; "robustness";
               "fooling_rate"; "sorted_errors" ]} ∧
    r !! "epsilon" = Some (VFloat 0.1) ∧
    r !! "robustness" = Some (robustness res) ∧
    r !! "restarts" = Some (VInt 1).
Proof.
  assert (H0 : Pgd.experiments !! 0%nat = Some c0) by (vm_compute; reflexivity).
  assert (R0 : run0 = (Ok tt, run0.2)) by (vm_compute; reflexivity).
  split; [exact H0|]. split; [exact R0|].
  destruct (pgd_record_fields toy_env 0 c0 VNone (VInt 1) VNone
              toy_world run0.2 H0 R0)
    as (d & old & r & res & n & Hl & Hd & Hdom & _ & _ & _ & He & Hr & _ & _
        & _ & _ & Hre).
  exists d, old, r, res. by repeat split.
Defined.

Lemma pgd_missing_state_dict_witness :
  Pgd.pgd toy_env true (Some 0%Z) VNone (VInt 1) VNone bare_world =
    (Raise (KeyError "state_dict"),
     {| fs := fs bare_world;
        trace := [ Stdout "0 MNIST-small-0.03 0 0.1";
                   Call_model "small_cnn";
                   Call_fit_to_dataset "MNIST";
                   Call_torch_load "dm_torch/mnist-small-0.03.pth" ] |}).
Proof.
  assert (H0 : Pgd.experiments !! 0%nat = Some c0) by (vm_compute; reflexivity).
  exact (pgd_missing_state_dict toy_env 0 c0 VNone (VInt 1) VNone
           bare_world [] [] {[ "best" := VFloat 0.5 ]}
           H0 eq_refl eq_refl eq_refl eq_refl).
Defined.

Lemma pgd_failure_writes_nothing_witness :
  Pgd.experiments !! 0%nat = Some c0 ∧
  let out := Pgd.pgd toy_env true (Some 0%Z) VNone (VInt 1) VNone
               empty_world in
  out.1 ≠ Ok tt ∧ fs out.2 = fs empty_world.
Proof.
  assert (H0 : Pgd.experiments !! 0%nat = Some c0) by (vm_compute; reflexivity).
  split; [exact H0|].
  destruct (pgd_failure_writes_nothing toy_env 0 c0 VNone (VInt 1) VNone
              empty_world H0) as (Hload & _).
  apply Hload. intros v. cbn [fs empty_world]. rewrite lookup_empty.
  discriminate.
Defined.

(** The claim C7 fails for an invocation over several experiments:
    [ibp pgd --run], with an attack that raises in the second experiment,
    raises, and the checkpoint file of that experiment is not as it was:
    the first experiment, which reads the same file, has saved its record
    in it. *)
Lemma pgd_failure_after_a_save :
  let out := Pgd.main failing_attack_env run_all toy_world in
  let path := "dm_torch/mnist-small-0.03.pth" in
  Pgd.experiments !! 1%nat = Some c1 ∧
  Pgd.checkpoint_file c1 = path ∧
  out.1 = Raise (Raised "out of memory") ∧
  last (trace out.2)
    = Some (Call_compute_robustness
              (Pgd.attack_args failing_attack_env "MNIST" 0.2 VNone (VInt 1)
                 VNone)) ∧
  compute_robustness failing_attack_env [VDict ∅]
    (Pgd.attack_args failing_attack_env "MNIST" 0.2 VNone (VInt 1) VNone)
    = Raise (Raised "out of memory") ∧
  fs out.2 !! path ≠ fs toy_world !! path.
Proof.
  cbv zeta.
  split; [vm_compute; reflexivity|]. split; [vm_compute; reflexivity|].
  split; [vm_compute; reflexivity|]. split; [vm_compute; reflexivity|].
  split; [vm_compute; reflexivity|].
  set (has_records := λ f : option file,
    match f with
    | Some (Pickle (VDict d)) =>
        match d !! "PGD" with Some _ => true | None => false end
    | _ => false
    end).
  assert (Hafter : has_records
    (fs (Pgd.main failing_attack_env run_all toy_world).2
       !! "dm_torch/mnist-small-0.03.pth") = true) by (vm_compute; reflexivity).
  assert (Hbefore : has_records
    (fs toy_world !! "dm_torch/mnist-small-0.03.pth") = false)
    by (vm_compute; reflexivity).
  intros Heq. rewrite Heq, Hbefore in Hafter. discriminate Hafter.
Qed.

Lemma experiment_paths_witness :
  Experiment.grid !! 0%nat = Some ("MNIST", 0.001, 0.1, "small_cnn")%float ∧
  ∃ kw,
    trace (Experiment.experiment toy_env true (Some 0%Z) empty_world).2 =
      [ Stdout ("0 ibp basic --train -d MNIST -m small_cnn -e 0.001 -lr 0.1"
                +:+ " -l MNIST-small_cnn-0.001/0.1"
                +:+ " -c MNIST-small_cnn-0.001/0.1/checkpoint.pth");
        Call_train_classifier kw ] ∧
    kw !! "log_dir" = Some (VStr "MNIST-small_cnn-0.001/0.1") ∧
    kw !! "checkpoint"
      = Some (VStr "MNIST-small_cnn-0.001/0.1/checkpoint.pth").
Proof.
  assert (H0 : Experiment.grid !! 0%nat
               = Some ("MNIST", 0.001, 0.1, "small_cnn")%float)
    by (vm_compute; reflexivity).
  split; [exact H0|].
  destruct (experiment_paths toy_env true 0 "MNIST" "small_cnn" 0.001 0.1
              empty_world H0) as (kw & Ht & Hl & Hc & _).
  exists kw. split; [|split].
  - change (Some 0%Z) with (Some (Z.of_nat 0)). rewrite Ht.
    vm_compute. reflexivity.
  - rewrite Hl. vm_compute. reflexivity.
  - rewrite Hc. vm_compute. reflexivity.
Defined.

(** * Further properties of cli.py *)

Set Warnings "-clear-no-such-hyp".

(** ** Loops over an enumeration *)

Lemma for_each_enumerate_seq {A} (l0 : list A) (f : nat * A → M unit)
    (g : nat → M unit) :
  (∀ i c w, l0 !! i = Some c → g i w = f (i, c) w) →
  ∀ k n w, n + k = length l0 →
    for_each (enumerate_from n (drop n l0)) f w = for_each (seq n k) g w.
Proof.
  intros Hg k. induction k as [|k IH]; intros n w Hn.
  - rewrite drop_ge by lia. done.
  - destruct (lookup_lt_is_Some_2 l0 n) as [x Hx]; [lia|].
    rewrite (drop_S _ _ _ Hx). simpl. unfold bind.
    rewrite (Hg _ _ _ Hx). destruct (f (n, x) w) as [[[]|e] w1]; [|done].
    apply IH. lia.
Qed.

Section Indexes.
Context (E : env).

(** X1: [pgd] and [experiment] without an index do what the runs on the
    indexes 0, 1, 2, ... do one after the other, up to the first that
    raises. *)
Theorem no_index_runs_every_index (run : bool) (subset restarts seed : pyval)
    (w : world) :
  Pgd.pgd E run None subset restarts seed w =
    for_each (seq 0 80)
      (λ i, Pgd.pgd E run (Some (Z.of_nat i)) subset restarts seed) w ∧
  Experiment.experiment E run None w =
    for_each (seq 0 252)
      (λ i, Experiment.experiment E run (Some (Z.of_nat i))) w.
Proof.
  split.
  - unfold Pgd.pgd at 1. unfold enumerate.
    apply (for_each_enumerate_seq Pgd.experiments _ _); [|done].
    intros i c w1 Hc. rewrite pgd_selected, Hc. done.
  - unfold Experiment.experiment at 1. unfold enumerate.
    apply (for_each_enumerate_seq Experiment.grid _ _); [|done].
    intros i c w1 Hc. rewrite experiment_selected, Hc. done.
Qed.

Lemma skipped_negative (z : Z) (j : nat) : (z < 0)%Z → skipped (Some z) j = true.
Proof. intros H. unfold skipped. apply negb_true_iff, Z.eqb_neq. lia. Qed.

(** X2: an index that is negative or past the end of the enumeration selects
    nothing: the command returns without printing, calling or writing
    anything. *)
Theorem index_out_of_range_does_nothing (run : bool) (z : Z)
    (subset restarts seed : pyval) (w : world) :
  ((z < 0 ∨ 80 ≤ z)%Z →
   Pgd.pgd E run (Some z) subset restarts seed w = (Ok tt, w)) ∧
  ((z < 0 ∨ 252 ≤ z)%Z →
   Experiment.experiment E run (Some z) w = (Ok tt, w)).
Proof.
  split; intros [Hneg|Hbig].
  - apply for_each_noop. intros [j c] w1 _. unfold Pgd.body.
    by rewrite skipped_negative.
  - replace z with (Z.of_nat (Z.to_nat z)) by lia.
    rewrite pgd_selected, lookup_ge_None_2; [done|].
    change (length Pgd.experiments) with 80. lia.
  - apply for_each_noop. intros [j c] w1 _. unfold Experiment.body.
    by rewrite skipped_negative.
  - replace z with (Z.of_nat (Z.to_nat z)) by lia.
    rewrite experiment_selected, lookup_ge_None_2; [done|].
    change (length Experiment.grid) with 252. lia.
Qed.

(** One turn of the loop of [experiment] in run mode. *)
Lemma experiment_body_selected (index : option Z) (j : nat)
    (c : Experiment.config) w :
  skipped index j = false →
  Experiment.body E true index (j, c) w =
    let '(r, files) := train_classifier E (training_kwargs (j, c)) (fs w) in
    (r, {| fs := files; trace := trace w ++ training_events (j, c) |}).
Proof.
  intros Hs. unfold Experiment.body. rewrite Hs.
  unfold bind, print, call, invoke_basic, basic, log, training_kwargs,
    training_events.
  cbn [fs trace fst snd].
  destruct (train_classifier E _ (fs w)) as [r files].
  by rewrite <- app_assoc.
Qed.

(** The loop of [experiment] in run mode, on any part of the grid. *)
Lemma experiment_loop (index : option Z) (l : list (nat * Experiment.config))
    w r w' :
  for_each l (Experiment.body E true index) w = (r, w') →
  ∃ ran,
    ran `prefix_of` filter (λ ic, negb (skipped index ic.1)) l ∧
    trace w' = trace w ++ flat_map training_events ran ∧
    trained E (fs w) ran r (fs w') ∧
    (r = Ok tt → ran = filter (λ ic, negb (skipped index ic.1)) l).
Proof.
  revert w. induction l as [|[j c] l IH]; intros w.
  - intros [= <- <-]. exists []. cbn [flat_map]. rewrite app_nil_r.
    repeat split; [done|constructor].
  - rewrite filter_cons. cbn [for_each fst]. unfold bind at 1.
    destruct (skipped index j) eqn:Hs; cbn [negb].
    + unfold Experiment.body at 1. rewrite Hs. unfold ret. apply IH.
    + rewrite (experiment_body_selected index j c w Hs).
      destruct (train_classifier E (training_kwargs (j, c)) (fs w))
        as [[[]|e] files1] eqn:Ht.
      * intros (ran & Hp & Htr & Hran & Hall)%IH. cbn [fs trace] in *.
        exists ((j, c) :: ran). rewrite decide_True by done.
        split; [by apply prefix_cons|]. split.
        { rewrite Htr. cbn [flat_map]. by rewrite <- !app_assoc. }
        split; [by eapply trained_next|].
        intros Hr. by rewrite (Hall Hr).
      * intros [= <- <-]. exists [(j, c)]. rewrite decide_True by done.
        split; [apply prefix_cons, prefix_nil|]. split.
        { cbn [flat_map trace]. by rewrite app_nil_r. }
        split; [by apply trained_raised|done].
Qed.
(** X3: in run mode [experiment] trains the selected configurations in the
    order of the grid, each once and on the files that the training before
    it left, printing its line first; it stops at the first training that
    raises, with the exception of that training, and returns normally when
    every training has. *)
Theorem experiment_trains_in_order (index : option Z) (w : world) :
  let out := Experiment.experiment E true index w in
  ∃ ran,
    ran `prefix_of` selected_configs index ∧
    trace out.2 = trace w ++ flat_map training_events ran ∧
    trained E (fs w) ran out.1 (fs out.2) ∧
    (out.1 = Ok tt → ran = selected_configs index).
Proof.
  intros out. destruct out as [r w'] eqn:Hout. simpl.
  unfold selected_configs. by apply experiment_loop.
Qed.

End Indexes.

(** X4: position [i] of the grid of [experiment] holds dataset [i / 63],
    epsilon [i / 9 mod 7], learning rate [i / 3 mod 3] and model [i mod 3]
    of the four lists; the grid has 252 positions. *)
Theorem experiment_grid_positions (i : nat) :
  Experiment.grid !! i =
    if decide (i < 252) then Some (experiment_at i) else None.
Proof.
  assert (H : Experiment.grid = experiment_at <$> seq 0 252)
    by (vm_compute; reflexivity).
  rewrite H, list_lookup_fmap. case_decide.
  - by rewrite lookup_seq_lt.
  - by rewrite lookup_seq_ge by lia.
Qed.

(** X5: the experiments of [pgd] are 72 on MNIST followed by 8 on CIFAR10;
    on MNIST position [i] holds epsilon [i / 24] of 0.03, 0.1, 0.2, model
    [i / 12 mod 2], learning rate [i / 3 mod 4] and test epsilon [i mod 3] of
    0.1, 0.2, 0.3; on CIFAR10 epsilon is 0.01 and the test epsilon 2/255. *)
Theorem pgd_experiment_positions (i : nat) :
  Pgd.experiments !! i =
    if decide (i < 80) then Some (pgd_experiment_at i) else None.
Proof.
  assert (H : Pgd.experiments = pgd_experiment_at <$> seq 0 80)
    by (vm_compute; reflexivity).
  rewrite H, list_lookup_fmap. case_decide.
  - by rewrite lookup_seq_lt.
  - by rewrite lookup_seq_ge by lia.
Qed.

(** ** Options with a value *)

(** The value of a valued option on an accepted command line. *)
Lemma valued_option (E : env) decls d argv kw :
  make_kwargs E decls argv = inr (Kwargs kw) →
  declared_once decls d →
  is_flag d = false → off_names d = [] → dest d ≠ "help" →
  (∀ n, n ∈ names d → find_option decls n = Some d) →
  ∃ v, kw !! dest d = Some v ∧
       param_value E d
         (from_option (λ wd, [(dest d, FromArgv wd)]) []
            (last_value (names d) argv)) = inr v.
Proof.
  intros Hk Hd Hflag Hoff Hhelp Hnames.
  destruct (make_kwargs_lookup E _ _ _ d Hk Hd) as (seen & v & Hp & _ & Hv & Hkw).
  exists v. split; [done|]. rewrite <- Hv. unfold param_value.
  rewrite (given_last_value _ _ _ _ Hp Hd Hflag Hoff Hhelp Hnames).
  destruct (last_value _ argv); simpl; [|done].
  by rewrite String.eqb_refl.
Qed.

Lemma basic_valued_option d :
  d ∈ [opt_dataset; opt_model; opt_learning_rate; opt_momentum;
       opt_weight_decay; opt_epochs; opt_batch_size; opt_jobs;
       opt_checkpoint; opt_resume; opt_log_dir; opt_seed; opt_epsilon] →
  declared_once basic_params d ∧ is_flag d = false ∧ off_names d = [] ∧
  dest d ≠ "help" ∧ (∀ n, n ∈ names d → find_option basic_params n = Some d).
Proof.
  intros Hd. cases_in Hd.
  all: split; [solve_declared_once|].
  all: do 3 (split; [done|]); solve_names.
Qed.

Lemma basic_option_value (E : env) argv kw d :
  d ∈ [opt_dataset; opt_model; opt_learning_rate; opt_momentum;
       opt_weight_decay; opt_epochs; opt_batch_size; opt_jobs;
       opt_checkpoint; opt_resume; opt_log_dir; opt_seed; opt_epsilon] →
  make_kwargs E basic_params argv = inr (Kwargs kw) →
  ∃ v, kw !! dest d = Some v ∧
       param_value E d
         (from_option (λ wd, [(dest d, FromArgv wd)]) []
            (last_value (names d) argv)) = inr v.
Proof.
  intros (Hd & Hflag & Hoff & Hhelp & Hnames)%basic_valued_option Hk.
  by apply (valued_option E basic_params).
Qed.

Lemma index_option decls :
  decls = [opt_run; opt_index] →
  declared_once decls opt_index ∧
  (∀ n, n ∈ names opt_index → find_option decls n = Some opt_index).
Proof. intros ->. split; [solve_declared_once|solve_names]. Qed.

Lemma index_value (E : env) decls argv kw :
  decls = [opt_run; opt_index] →
  make_kwargs E decls argv = inr (Kwargs kw) →
  ∃ v, kw !! "index" = Some v ∧
       param_value E opt_index
         (from_option (λ wd, [("index", FromArgv wd)]) []
            (last_value (names opt_index) argv)) = inr v.
Proof.
  intros Hdecls Hk. destruct (index_option decls Hdecls) as [Hd Hnames].
  by apply (valued_option E decls opt_index).
Qed.

Section Surface.
Context (E : env).

(** X6: [--index] of [experiment] and [pgd] takes a non-negative integer:
    any other word is a usage error before anything runs; without the
    option every configuration is selected. *)
Theorem index_is_a_natural_number (argv : list token) (w : world) :
  (∀ wd,
     last_value ["--index"; "-i"] argv = Some wd →
     (∀ z, read wd = RInt z → (z < 0)%Z) →
     Switch "--help" ∉ argv →
     (∃ e, Experiment.main E argv w = (Raise (UsageError e), w)) ∧
     (∃ e, Pgd.main E argv w = (Raise (UsageError e), w))) ∧
  (∀ kw wd,
     make_kwargs E [opt_run; opt_index] argv = inr (Kwargs kw) →
     last_value ["--index"; "-i"] argv = Some wd →
     ∃ z, read wd = RInt z ∧ (0 ≤ z)%Z ∧ kw_int kw "index" = Some z) ∧
  (∀ kw,
     make_kwargs E [opt_run; opt_index] argv = inr (Kwargs kw) →
     last_value ["--index"; "-i"] argv = None →
     kw_int kw "index" = None).
Proof.
  assert (Hgiven : ∀ kw wd,
    make_kwargs E [opt_run; opt_index] argv = inr (Kwargs kw) →
    last_value ["--index"; "-i"] argv = Some wd →
    ∃ z, read wd = RInt z ∧ (0 ≤ z)%Z ∧ kw_int kw "index" = Some z).
  { intros kw wd Hk Hl.
    destruct (index_value E _ argv kw eq_refl Hk) as (v & Hkw & Hv).
    change (names opt_index) with ["--index"; "-i"] in Hv.
    rewrite Hl in Hv. unfold param_value in Hv. simpl in Hv.
    destruct (read wd) as [z| |]; simpl in Hv; try done.
    destruct (Z.ltb_spec z 0); simpl in Hv; [done|].
    injection Hv as <-. exists z. unfold kw_int. by rewrite Hkw. }
  split; [|split; [exact Hgiven|]].
  - intros wd Hl Hbad Hnohelp.
    split.
    + destruct (run_command_no_help E "experiment" Experiment.params
        (λ kwargs, Experiment.experiment E (kw_bool kwargs "run")
                     (kw_int kwargs "index")) argv w run_index_no_help Hnohelp)
        as [(kw & Hk & _)|He]; [|exact He].
      destruct (Hgiven kw wd Hk Hl) as (z & Hr & Hz & _).
      apply Hbad in Hr. lia.
    + destruct (run_command_no_help E "pgd" Pgd.params
        (λ kwargs, Pgd.pgd E (kw_bool kwargs "run") (kw_int kwargs "index")
                     VNone (VInt 1) VNone) argv w run_index_no_help Hnohelp)
        as [(kw & Hk & _)|He]; [|exact He].
      destruct (Hgiven kw wd Hk Hl) as (z & Hr & Hz & _).
      apply Hbad in Hr. lia.
  - intros kw Hk Hl.
    destruct (index_value E _ argv kw eq_refl Hk) as (v & Hkw & Hv).
    change (names opt_index) with ["--index"; "-i"] in Hv.
    rewrite Hl in Hv. unfold param_value in Hv. simpl in Hv.
    injection Hv as <-. unfold kw_int. by rewrite Hkw.
Qed.

(** X7: the number of epochs, the batch size and the number of jobs of
    [basic] are non-negative integers: any other word is a usage error
    before [train_classifier] is called.  The seed is any integer, and None
    when not given. *)
Theorem basic_integer_options (argv : list token) (w : world) :
  (∀ d wd,
     d ∈ [opt_epochs; opt_batch_size; opt_jobs] →
     last_value (names d) argv = Some wd →
     (∀ z, read wd = RInt z → (z < 0)%Z) →
     Switch "--help" ∉ argv →
     ∃ e, main_basic E argv w = (Raise (UsageError e), w)) ∧
  (∀ d wd kw,
     d ∈ [opt_epochs; opt_batch_size; opt_jobs] →
     make_kwargs E basic_params argv = inr (Kwargs kw) →
     last_value (names d) argv = Some wd →
     ∃ z, read wd = RInt z ∧ (0 ≤ z)%Z ∧ kw !! dest d = Some (VInt z)) ∧
  (∀ wd kw,
     make_kwargs E basic_params argv = inr (Kwargs kw) →
     last_value (names opt_seed) argv = Some wd →
     ∃ z, read wd = RInt z ∧ kw !! "seed" = Some (VInt z)) ∧
  (∀ kw,
     make_kwargs E basic_params argv = inr (Kwargs kw) →
     last_value (names opt_seed) argv = None →
     kw !! "seed" = Some VNone).
Proof.
  assert (Hgiven : ∀ d wd kw,
    d ∈ [opt_epochs; opt_batch_size; opt_jobs] →
    make_kwargs E basic_params argv = inr (Kwargs kw) →
    last_value (names d) argv = Some wd →
    ∃ z, read wd = RInt z ∧ (0 ≤ z)%Z ∧ kw !! dest d = Some (VInt z)).
  { intros d wd kw Hd Hk Hl.
    assert (Hd' : d ∈ [opt_dataset; opt_model; opt_learning_rate;
      opt_momentum; opt_weight_decay; opt_epochs; opt_batch_size; opt_jobs;
      opt_checkpoint; opt_resume; opt_log_dir; opt_seed; opt_epsilon])
      by (cases_in Hd; solve_in).
    destruct (basic_option_value E argv kw d Hd' Hk) as (v & Hkw & Hv).
    rewrite Hl in Hv. unfold param_value in Hv.
    cases_in Hd; simpl in Hv;
      (destruct (read wd) as [z| |]; simpl in Hv; try done;
       destruct (Z.ltb_spec z 0); simpl in Hv; [done|];
       injection Hv as <-; by exists z). }
  split; [|split; [exact Hgiven|split]].
  - intros d wd Hd Hl Hbad Hnohelp.
    destruct (run_command_no_help E "basic" basic_params (basic E) argv w
                basic_no_help_param Hnohelp) as [(kw & Hk & _)|He]; [|exact He].
    destruct (Hgiven d wd kw Hd Hk Hl) as (z & Hr & Hz & _).
    apply Hbad in Hr. lia.
  - intros wd kw Hk Hl.
    assert (Hd' : opt_seed ∈ [opt_dataset; opt_model; opt_learning_rate;
      opt_momentum; opt_weight_decay; opt_epochs; opt_batch_size; opt_jobs;
      opt_checkpoint; opt_resume; opt_log_dir; opt_seed; opt_epsilon])
      by solve_in.
    destruct (basic_option_value E argv kw opt_seed Hd' Hk) as (v & Hkw & Hv).
    rewrite Hl in Hv. unfold param_value in Hv. simpl in Hv.
    destruct (read wd) as [z| |]; simpl in Hv; try done.
    injection Hv as <-. by exists z.
  - intros kw Hk Hl.
    assert (Hd' : opt_seed ∈ [opt_dataset; opt_model; opt_learning_rate;
      opt_momentum; opt_weight_decay; opt_epochs; opt_batch_size; opt_jobs;
      opt_checkpoint; opt_resume; opt_log_dir; opt_seed; opt_epsilon])
      by solve_in.
    destruct (basic_option_value E argv kw opt_seed Hd' Hk) as (v & Hkw & Hv).
    rewrite Hl in Hv. unfold param_value in Hv. simpl in Hv.
    by injection Hv as <-.
Qed.

(** X8: [basic] passes the dataset, the model, the checkpoint, the file to
    resume from and the log directory on as the text written last for the
    option, and as the default when the option is not written.  The dataset
    and the model are not checked: their conversion never fails.  The three
    paths are checked by click: when the path written last, or the default
    path, exists and may not be read, the command ends in a usage error
    before [train_classifier] is called; no other path is rejected. *)
Theorem basic_text_options (argv : list token) (w : world) :
  (∀ d kw,
     d ∈ [opt_dataset; opt_model; opt_checkpoint; opt_resume; opt_log_dir] →
     make_kwargs E basic_params argv = inr (Kwargs kw) →
     kw !! dest d =
       Some (from_option (λ wd, VStr (text wd)) (default d)
               (last_value (names d) argv)) ∧
     kw !! dest d = Some (VStr (option_text d argv))) ∧
  (∀ d seen,
     d ∈ [opt_dataset; opt_model] →
     parse_args basic_params argv = inr seen →
     param_value E d seen = inr (VStr (option_text d argv))) ∧
  (∀ d seen,
     d ∈ [opt_checkpoint; opt_resume; opt_log_dir] →
     parse_args basic_params argv = inr seen →
     param_value E d seen =
       if path_accepted E (option_text d argv)
       then inr (VStr (option_text d argv))
       else inl (BadParameter (dest d))) ∧
  (∀ d,
     d ∈ [opt_checkpoint; opt_resume; opt_log_dir] →
     path_accepted E (option_text d argv) = false →
     Switch "--help" ∉ argv →
     ∃ e, main_basic E argv w = (Raise (UsageError e), w)) ∧
  (∀ s, path_accepted E s = false ↔ s ≠ "" ∧ unreadable E s = true).
Proof.
  assert (Hin : ∀ d,
    d ∈ [opt_dataset; opt_model; opt_checkpoint; opt_resume; opt_log_dir] →
    d ∈ [opt_dataset; opt_model; opt_learning_rate;
         opt_momentum; opt_weight_decay; opt_epochs; opt_batch_size; opt_jobs;
         opt_checkpoint; opt_resume; opt_log_dir; opt_seed; opt_epsilon]).
  { intros d Hd. cases_in Hd; solve_in. }
  assert (Hvalue : ∀ d seen,
    d ∈ [opt_dataset; opt_model; opt_checkpoint; opt_resume; opt_log_dir] →
    parse_args basic_params argv = inr seen →
    param_value E d seen =
      match type d with
      | Path =>
          if path_accepted E (option_text d argv)
          then inr (VStr (option_text d argv))
          else inl (BadParameter (dest d))
      | _ => inr (VStr (option_text d argv))
      end).
  { intros d seen Hd Hp.
    destruct (basic_valued_option d (Hin d Hd))
      as (Hdecl & Hflag & Hoff & Hhelp & Hnames).
    unfold param_value, option_text.
    rewrite (given_last_value _ _ _ _ Hp Hdecl Hflag Hoff Hhelp Hnames).
    destruct (last_value (names d) argv) as [wd|]; cases_in Hd;
      cbn [fmap option_fmap option_map from_option id convert type default
             dest opt_dataset opt_model opt_checkpoint opt_resume opt_log_dir];
      try reflexivity;
      by destruct (path_accepted E _). }
  split; [|split; [|split; [|split]]].
  - intros d kw Hd Hk.
    destruct (make_kwargs_lookup E _ _ _ d Hk) as (seen & v & Hp & _ & Hv & Hkw).
    { by destruct (basic_valued_option d (Hin d Hd)). }
    rewrite Hkw. rewrite (Hvalue d seen Hd Hp) in Hv.
    unfold option_text in *.
    destruct (last_value (names d) argv) as [wd|]; cases_in Hd;
      cbn [type default from_option opt_dataset opt_model opt_checkpoint
             opt_resume opt_log_dir] in *;
      try (injection Hv as <-; done);
      (destruct (path_accepted E _); [injection Hv as <-; done|done]).
  - intros d seen Hd Hp. rewrite (Hvalue d seen); [|cases_in Hd; solve_in|done].
    by cases_in Hd.
  - intros d seen Hd Hp. rewrite (Hvalue d seen); [|cases_in Hd; solve_in|done].
    by cases_in Hd.
  - intros d Hd Hbad Hnohelp.
    destruct (run_command_no_help E "basic" basic_params (basic E) argv w
                basic_no_help_param Hnohelp) as [(kw & Hk & _)|He]; [|exact He].
    exfalso.
    assert (Hd' : d ∈ [opt_dataset; opt_model; opt_checkpoint; opt_resume;
                       opt_log_dir]) by (cases_in Hd; solve_in).
    destruct (make_kwargs_lookup E _ _ _ d Hk) as (seen & v & Hp & _ & Hv & _).
    { by destruct (basic_valued_option d (Hin d Hd')). }
    rewrite (Hvalue d seen Hd' Hp) in Hv.
    cases_in Hd; cbn [type opt_checkpoint opt_resume opt_log_dir] in Hv;
      by rewrite Hbad in Hv.
  - intros s. unfold path_accepted.
    destruct (String.eqb_spec s "") as [->|Hne];
      destruct (unreadable E _); simpl; naive_solver.
Qed.

End Surface.

(** ** The keyword arguments as a whole *)

Lemma convert_all_dom (E : env) ds seen kw0 kw :
  convert_all E ds seen kw0 = inr kw →
  dom kw = list_to_set (dest <$> ds) ∪ dom kw0.
Proof.
  revert kw0. induction ds as [|d ds IH]; intros kw0; simpl.
  - intros [= <-]. set_solver.
  - destruct (param_value E d seen); [done|].
    intros ->%IH. rewrite dom_insert_L. set_solver.
Qed.

Lemma make_kwargs_dom (E : env) decls argv kw :
  (∀ d, d ∈ decls → declared_once decls d) →
  make_kwargs E decls argv = inr (Kwargs kw) →
  dom kw = list_to_set (dest <$> decls).
Proof.
  intros Hd. unfold make_kwargs.
  destruct (parse_args decls argv) as [?|seen]; [done|].
  destruct (given seen "help"); [done|].
  destruct (convert_all _ _ seen ∅) as [?|kw'] eqn:Hc; [done|].
  intros [= <-]. rewrite (convert_all_dom E _ _ _ _ Hc), dom_empty_L.
  rewrite union_empty_r_L. apply set_eq. intros name.
  rewrite !elem_of_list_to_set, !list_elem_of_fmap. split.
  - intros (d & -> & Hin%processing_order_subset). by exists d.
  - intros (d & -> & Hin). exists d. split; [done|].
    by apply processing_order_complete, Hd.
Qed.

Lemma basic_declared_once d : d ∈ basic_params → declared_once basic_params d.
Proof. intros Hd. cases_in Hd; solve_declared_once. Qed.

(** For the parameters that [experiment] leaves out when it invokes
    [basic], converting the default gives the default back, whatever the
    files are: [ctx.invoke] passes the defaults as they are declared. *)
Lemma basic_defaults_convert (E : env) (c : Experiment.config)
    (d : option_decl) :
  d ∈ basic_params →
  Experiment.invocation c !! dest d = None →
  param_value E d [] = inr (default d).
Proof.
  intros Hd. destruct c as [[[dataset epsilon] learning_rate] model].
  unfold Experiment.invocation.
  generalize (Experiment.directory (dataset, epsilon, learning_rate, model)).
  intros dir Hnone.
  cases_in Hd; first [reflexivity | by vm_compute in Hnone].
Qed.

(** X9: every call of [train_classifier], from the command line of [basic]
    or from [experiment], carries the same fifteen keyword arguments. *)
Theorem basic_passes_fifteen_parameters (E : env) (argv : list token)
    (kw : gmap string pyval) (c : Experiment.config) :
  (make_kwargs E basic_params argv = inr (Kwargs kw) →
   dom kw = basic_parameter_names) ∧
  dom (Experiment.invocation c ∪ defaults basic_params)
    = basic_parameter_names.
Proof.
  split.
  - intros Hk. rewrite (make_kwargs_dom E _ _ _ basic_declared_once Hk).
    unfold basic_parameter_names. simpl. set_solver.
  - destruct c as [[[dataset epsilon] learning_rate] model].
    rewrite dom_union_L. unfold Experiment.invocation, defaults.
    rewrite !dom_list_to_map_L. unfold basic_parameter_names. simpl.
    set_solver.
Qed.

(** ** Records *)

(** [add_record] succeeds only on a dictionary whose 'PGD' entry is
    absent or a list: with another value under 'PGD' the call of [append]
    raises an attribute error, and a checkpoint that is no dictionary
    raises a type error. *)
Lemma add_record_failures (v rec : pyval) :
  (∀ d x, v = VDict d → d !! "PGD" = Some x → (∀ l, x ≠ VList l) →
          Pgd.add_record v rec = Raise (AttributeError "append")) ∧
  ((∀ d, v ≠ VDict d) → ∃ what, Pgd.add_record v rec = Raise (TypeError what)) ∧
  (∀ v', Pgd.add_record v rec = Ok v' →
         ∃ d old, v = VDict d ∧ Pgd.stored d old).
Proof.
  split; [|split].
  - intros d x -> Hx Hl. unfold Pgd.add_record. simpl. rewrite Hx. simpl.
    rewrite Hx. simpl. destruct x; try done. by destruct (Hl l).
  - intros Hv. unfold Pgd.add_record.
    destruct v as [| | | |s|l|d]; simpl; try by eexists.
    + destruct (String.index 0 "PGD" s); simpl; by eexists.
    + destruct (existsb _ l); simpl; by eexists.
    + by destruct (Hv d).
  - intros v' (d & old & -> & Hs & _)%add_record_ok. by exists d, old.
Qed.

Section PgdMore.
Context (E : env).

(** X10: when the 'PGD' entry of the loaded checkpoint is not a list, [pgd]
    raises the attribute error only after [compute_robustness] has run, and
    saves nothing. *)
Theorem pgd_record_list_must_be_a_list (i : nat) (c : Pgd.config)
    (subset restarts seed : pyval) (w : world) n0 n1 n2 d sd res x :
  Pgd.experiments !! i = Some c →
  models_dict E (Pgd.model_of c +:+ "_cnn") = Some (Ok n0) →
  fit_to_dataset E n0 (Pgd.dataset_of c) = Ok n1 →
  fs w !! Pgd.checkpoint_file c = Some (Pickle (VDict d)) →
  d !! "state_dict" = Some sd →
  load_state_dict E n1 sd = Ok n2 →
  compute_robustness E n2
    (Pgd.attack_args E (Pgd.dataset_of c) (Pgd.test_epsilon_of c)
       subset restarts seed) = Ok res →
  d !! "PGD" = Some x → (∀ l, x ≠ VList l) →
  Pgd.pgd E true (Some (Z.of_nat i)) subset restarts seed w =
    (Raise (AttributeError "append"),
     {| fs := fs w;
        trace := trace w ++ Stdout (Pgd.line i c) ::
                 take 5 (Pgd.evaluation_trace E c subset restarts seed sd
                           VNone) |}).
Proof.
  intros Hc Hm Hf Hl Hsd Hls Hr Hx Hnl. rewrite pgd_selected, Hc.
  destruct c as [[[[dataset epsilon] model] learning_rate] test_epsilon].
  unfold Pgd.model_of, Pgd.dataset_of, Pgd.test_epsilon_of in *.
  cbn [fst snd] in *. unfold Pgd.evaluate, Pgd.evaluation_trace.
  set (path := Pgd.checkpoint_file _) in *.
  unfold bind, print, call, lift, torch_load, load_file, log.
  cbn [fs trace Pgd.model_of Pgd.dataset_of Pgd.test_epsilon_of fst snd].
  rewrite Hm. simpl. rewrite Hf, Hl. simpl. rewrite Hsd, Hls, Hr.
  destruct (add_record_failures (VDict d)
    (Pgd.record seed subset restarts test_epsilon res)) as [Ha _].
  rewrite (Ha d x eq_refl Hx Hnl). by rewrite <- !app_assoc.
Qed.

Lemma enumerate_from_elem {A} (l : list A) n i c :
  (i, c) ∈ enumerate_from n l → n ≤ i ∧ l !! (i - n) = Some c.
Proof.
  revert n. induction l as [|x l IH]; intros n; simpl.
  - by intros ?%elem_of_nil.
  - intros [[= -> ->]|[Hn Hl]%IH]%elem_of_cons.
    + by rewrite Nat.sub_diag.
    + split; [lia|]. by replace (i - n) with (S (i - S n)) by lia.
Qed.

(** X11: whatever the outcome, [pgd] leaves every file alone that is not the
    checkpoint of an experiment it was asked to run. *)
Theorem pgd_touches_selected_checkpoints_only (run : bool) (index : option Z)
    (subset restarts seed : pyval) (w : world) (p : string) :
  (∀ (i : nat) c, Pgd.experiments !! i = Some c → skipped index i = false →
                  Pgd.checkpoint_file c ≠ p) →
  fs (Pgd.pgd E run index subset restarts seed w).2 !! p = fs w !! p.
Proof.
  intros Hp.
  destruct (Pgd.pgd E run index subset restarts seed w) as [r w'] eqn:Hrun.
  simpl. unfold Pgd.pgd in Hrun.
  eapply (for_each_invariant (λ w1, fs w1 !! p = fs w !! p));
    [|done|exact Hrun].
  intros [j c] w1 r1 w2 [_ Hin]%enumerate_from_elem IH.
  rewrite Nat.sub_0_r in Hin. unfold Pgd.body.
  destruct (skipped index j) eqn:Hs; [by intros [= _ <-]|].
  unfold bind, print, call. destruct run; [|by intros [= _ <-]].
  intros He. rewrite (evaluate_frame E _ _ _ _ _ _ _ p He); [done|].
  intros ->. by apply (Hp j c).
Qed.

End PgdMore.

(** ** Paths *)

(** X12: no two configurations of [experiment] share a log directory, hence
    no two trainings write the same checkpoint. *)
Theorem experiment_directories_distinct (i j : nat)
    (c c' : Experiment.config) :
  Experiment.grid !! i = Some c →
  Experiment.grid !! j = Some c' →
  Experiment.directory c = Experiment.directory c' →
  i = j.
Proof.
  assert (Hnd : NoDup (Experiment.directory <$> Experiment.grid)).
  { apply (bool_decide_unpack _). vm_compute. exact I. }
  intros Hi Hj Heq.
  apply (NoDup_lookup _ i j (Experiment.directory c) Hnd);
    rewrite list_lookup_fmap.
  - unfold Experiment.config in *. by rewrite Hi.
  - unfold Experiment.config in *. rewrite Hj. simpl. by rewrite Heq.
Qed.

(** X13: an experiment of [pgd] with a learning rate other than 0 reads the
    checkpoint that [experiment] has [basic] write for the same dataset,
    model, epsilon and learning rate; with learning rate 0 it reads a file
    that no configuration of [experiment] writes. *)
Theorem pgd_reads_what_experiment_writes (c : Pgd.config) :
  c ∈ Pgd.experiments →
  (number_eqb (Pgd.learning_rate_of c) (Int 0) = false →
   ∃ c', c' ∈ Experiment.grid ∧
         Pgd.checkpoint_file c
           = Experiment.directory c' +:+ "/checkpoint.pth" ∧
         c'.1.1.1 = Pgd.dataset_of c ∧
         c'.2 = Pgd.model_of c +:+ "_cnn" ∧
         PrimFloat.eqb c'.1.1.2 (Pgd.epsilon_of c) = true ∧
         number_eqb (Float c'.1.2) (Pgd.learning_rate_of c) = true) ∧
  (number_eqb (Pgd.learning_rate_of c) (Int 0) = true →
   ∀ c', c' ∈ Experiment.grid →
         Pgd.checkpoint_file c
           ≠ Experiment.directory c' +:+ "/checkpoint.pth").
Proof.
  intros Hc%list_elem_of_In.
  assert (Hall :
    let written :=
      (λ c' : Experiment.config,
         (c', Experiment.directory c' +:+ "/checkpoint.pth"))
        <$> Experiment.grid in
    forallb (λ c,
      let path := Pgd.checkpoint_file c in
      if number_eqb (Pgd.learning_rate_of c) (Int 0)
      then forallb (λ cp : Experiment.config * string,
                      negb (String.eqb path cp.2)) written
      else existsb (λ cp : Experiment.config * string,
             String.eqb path cp.2
             && String.eqb cp.1.1.1.1 (Pgd.dataset_of c)
             && String.eqb cp.1.2 (Pgd.model_of c +:+ "_cnn")
             && PrimFloat.eqb cp.1.1.1.2 (Pgd.epsilon_of c)
             && number_eqb (Float cp.1.1.2) (Pgd.learning_rate_of c))
             written) Pgd.experiments = true)
    by (vm_compute; reflexivity).
  cbv zeta in Hall.
  rewrite forallb_forall in Hall. specialize (Hall c Hc).
  split; intros Hlr; rewrite Hlr in Hall.
  - apply existsb_exists in Hall as ([c' p] & Hin & H).
    apply list_elem_of_In, list_elem_of_fmap in Hin as (c'' & [= <- ->] & Hin).
    simpl in H. repeat (apply andb_prop in H as [H ?]).
    exists c'. split; [done|].
    repeat split; try done; by apply String.eqb_eq.
  - intros c' Hin Heq. rewrite forallb_forall in Hall.
    assert (Hin' : In (c', Experiment.directory c' +:+ "/checkpoint.pth")
                     ((λ c' : Experiment.config,
                         (c', Experiment.directory c' +:+ "/checkpoint.pth"))
                        <$> Experiment.grid)).
    { apply list_elem_of_In, list_elem_of_fmap. by exists c'. }
    apply Hall in Hin'. cbn [snd] in Hin'.
    by rewrite Heq, String.eqb_refl in Hin'.
Qed.

Section Steps.
Context (E : env).

(** X14: a run of [pgd] on an experiment prints its line and then calls, in
    this order, the model constructor, [fit_to_dataset], [torch.load],
    [load_state_dict], [compute_robustness] and [torch.save], each on what
    the calls before it returned.  The first step that raises ends the run
    with its exception, after the calls made so far and with the files as
    they were; when the five calls have returned and the record is
    appended, the run ends as the call of [torch.save] does, on the
    checkpoint with the record. *)
Theorem pgd_effects_in_order (i : nat) (c : Pgd.config)
    (subset restarts seed : pyval) (w : world) :
  Pgd.experiments !! i = Some c →
  let run := Pgd.pgd E true (Some (Z.of_nat i)) subset restarts seed w in
  let after := after_calls E i c subset restarts seed w in
  let name := Pgd.model_of c +:+ "_cnn" in
  let path := Pgd.checkpoint_file c in
  let args := Pgd.attack_args E (Pgd.dataset_of c) (Pgd.test_epsilon_of c)
                subset restarts seed in
  (∀ e, from_option id (Raise (KeyError name)) (models_dict E name) = Raise e →
        run = (Raise e, after 1 VNone)) ∧
  (∀ n0, models_dict E name = Some (Ok n0) →
   (∀ e, fit_to_dataset E n0 (Pgd.dataset_of c) = Raise e →
         run = (Raise e, after 2 VNone)) ∧
   (∀ n1, fit_to_dataset E n0 (Pgd.dataset_of c) = Ok n1 →
    (∀ e, load_file (fs w) path = Raise e → run = (Raise e, after 3 VNone)) ∧
    (∀ checkpoint, load_file (fs w) path = Ok checkpoint →
     (∀ e, getitem checkpoint "state_dict" = Raise e →
           run = (Raise e, after 3 VNone)) ∧
     (∀ sd, getitem checkpoint "state_dict" = Ok sd →
      (∀ e, load_state_dict E n1 sd = Raise e →
            run = (Raise e, after 4 sd)) ∧
      (∀ n2, load_state_dict E n1 sd = Ok n2 →
       (∀ e, compute_robustness E n2 args = Raise e →
             run = (Raise e, after 5 sd)) ∧
       (∀ res, compute_robustness E n2 args = Ok res →
        let rec := Pgd.record seed subset restarts (Pgd.test_epsilon_of c)
                     res in
        (∀ e, Pgd.add_record checkpoint rec = Raise e →
              run = (Raise e, after 5 sd)) ∧
        (∀ saved, Pgd.add_record checkpoint rec = Ok saved →
                  run = torch_save E saved path (after 5 sd)))))))).
Proof.
  intros Hc. cbv zeta. rewrite pgd_selected, Hc.
  destruct c as [[[[dataset epsilon] model] learning_rate] test_epsilon].
  unfold after_calls, Pgd.evaluation_trace, Pgd.evaluate.
  cbn [Pgd.model_of Pgd.dataset_of Pgd.test_epsilon_of fst snd firstn take].
  set (path := Pgd.checkpoint_file _).
  set (args := Pgd.attack_args _ _ _ _ _ _).
  unfold bind, print, call, lift, ret, torch_load, log. cbn [fs trace].
  split.
  { intros e ->. by rewrite <- !app_assoc. }
  intros n0 ->. cbn [from_option id]. split.
  { intros e ->. by rewrite <- !app_assoc. }
  intros n1 ->. split.
  { intros e ->. by rewrite <- !app_assoc. }
  intros checkpoint ->. split.
  { intros e ->. by rewrite <- !app_assoc. }
  intros sd ->. split.
  { intros e ->. by rewrite <- !app_assoc. }
  intros n2 ->. split.
  { intros e ->. by rewrite <- !app_assoc. }
  intros res ->. split.
  { intros e ->. by rewrite <- !app_assoc. }
  intros saved ->. by rewrite <- !app_assoc.
Qed.

End Steps.

(** * Examples of the further properties *)

Lemma index_out_of_range_does_nothing_witness :
  Pgd.pgd toy_env true (Some 80%Z) VNone (VInt 1) VNone toy_world
    = (Ok tt, toy_world) ∧
  Experiment.experiment toy_env true (Some (-1)%Z) empty_world
    = (Ok tt, empty_world).
Proof.
  destruct (index_out_of_range_does_nothing toy_env true 80 VNone (VInt 1)
              VNone toy_world) as [Hpgd _].
  destruct (index_out_of_range_does_nothing toy_env true (-1) VNone (VInt 1)
              VNone empty_world) as [_ Hexp].
  split; [apply Hpgd; lia|apply Hexp; lia].
Defined.

Lemma experiment_trains_in_order_witness :
  ∃ ran,
    trace (Experiment.experiment toy_env true (Some 0%Z) empty_world).2
      = flat_map training_events ran ∧
    trained toy_env ∅ ran (Ok tt) ∅ ∧
    ran = selected_configs (Some 0%Z).
Proof.
  destruct (experiment_trains_in_order toy_env (Some 0%Z) empty_world)
    as (ran & _ & Ht & Hran & Hall).
  assert (Hok : (Experiment.experiment toy_env true (Some 0%Z) empty_world).1
                = Ok tt) by (vm_compute; reflexivity).
  assert (Hfs : fs (Experiment.experiment toy_env true (Some 0%Z)
                      empty_world).2 = ∅) by (vm_compute; reflexivity).
  rewrite Hok, Hfs in Hran.
  exists ran. split; [exact Ht|]. split; [exact Hran|exact (Hall Hok)].
Defined.

Lemma index_is_a_natural_number_witness :
  ∃ e, Pgd.main toy_env negative_index toy_world
       = (Raise (UsageError e), toy_world).
Proof.
  destruct (index_is_a_natural_number toy_env negative_index toy_world)
    as (Hbad & _).
  destruct (Hbad (Word "-3" (RInt (-3)))) as [_ H].
  - reflexivity.
  - intros z [= <-]. lia.
  - unfold negative_index. intros Hin%list_elem_of_singleton. discriminate.
  - exact H.
Defined.

Lemma basic_integer_options_witness :
  ∃ e, main_basic toy_env negative_batch empty_world
       = (Raise (UsageError e), empty_world).
Proof.
  destruct (basic_integer_options toy_env negative_batch empty_world)
    as (Hbad & _).
  apply (Hbad opt_batch_size (Word "-8" (RInt (-8)))).
  - right. left.
  - reflexivity.
  - intros z [= <-]. lia.
  - unfold negative_batch. intros Hin%list_elem_of_singleton. discriminate.
Defined.

Lemma basic_text_options_witness :
  (∃ kw, make_kwargs toy_env basic_params other_dataset = inr (Kwargs kw) ∧
         kw !! "dataset" = Some (VStr "SVHN") ∧
         kw !! "model" = Some (VStr "small_cnn")) ∧
  (∃ e, main_basic locked_env resume_secret empty_world
        = (Raise (UsageError e), empty_world)).
Proof.
  split.
  - destruct (make_kwargs toy_env basic_params other_dataset)
      as [e|[|kw]] eqn:Hk; [vm_compute in Hk; discriminate Hk..|].
    destruct (basic_text_options toy_env other_dataset empty_world)
      as (Hpass & _).
    exists kw. split; [reflexivity|]. split.
    + destruct (Hpass opt_dataset kw) as [H _]; [left|exact Hk|exact H].
    + destruct (Hpass opt_model kw) as [H _]; [right; left|exact Hk|exact H].
  - destruct (basic_text_options locked_env resume_secret empty_world)
      as (_ & _ & _ & Hbad & _).
    apply (Hbad opt_resume).
    + right. left.
    + reflexivity.
    + unfold resume_secret. intros Hin%list_elem_of_singleton. discriminate.
Defined.

Lemma basic_passes_fifteen_parameters_witness :
  ∃ kw, make_kwargs toy_env basic_params [] = inr (Kwargs kw) ∧
        dom kw = basic_parameter_names.
Proof.
  destruct (make_kwargs toy_env basic_params []) as [e|[|kw]] eqn:Hk;
    [vm_compute in Hk; discriminate Hk..|].
  exists kw. split; [reflexivity|].
  destruct (basic_passes_fifteen_parameters toy_env [] kw
              ("MNIST", 0.001, 0.1, "small_cnn")%float) as [H _].
  exact (H Hk).
Defined.

Lemma pgd_record_list_must_be_a_list_witness :
  Pgd.pgd toy_env true (Some 0%Z) VNone (VInt 1) VNone listless_world =
    (Raise (AttributeError "append"),
     {| fs := fs listless_world;
        trace := Stdout (Pgd.line 0 c0) ::
                 take 5 (Pgd.evaluation_trace toy_env c0 VNone (VInt 1) VNone
                           (VDict ∅) VNone) |}).
Proof.
  assert (H0 : Pgd.experiments !! 0%nat = Some c0) by (vm_compute; reflexivity).
  assert (Hl : fs listless_world !! Pgd.checkpoint_file c0
               = Some (Pickle (VDict listless_checkpoint)))
    by (vm_compute; reflexivity).
  assert (Hsd : listless_checkpoint !! "state_dict" = Some (VDict ∅))
    by (vm_compute; reflexivity).
  assert (Hx : listless_checkpoint !! "PGD" = Some VNone)
    by apply lookup_insert_eq.
  exact (pgd_record_list_must_be_a_list toy_env 0 c0 VNone (VInt 1) VNone
           listless_world [] [] [VDict ∅] listless_checkpoint (VDict ∅)
           (toy_results
              (Pgd.attack_args toy_env "MNIST" 0.1 VNone (VInt 1) VNone))
           VNone H0 eq_refl eq_refl Hl Hsd eq_refl eq_refl Hx
           (λ l H, eq_ind VNone (λ v, match v with VNone => True | _ => False end)
                     I _ H)).
Defined.

Lemma pgd_touches_selected_checkpoints_only_witness :
  fs (Pgd.pgd toy_env true (Some 0%Z) VNone (VInt 1) VNone toy_world).2
    !! "notes.txt" = fs toy_world !! "notes.txt".
Proof.
  apply (pgd_touches_selected_checkpoints_only toy_env true (Some 0%Z)).
  intros i c Hc Hs. unfold skipped in Hs.
  apply negb_false_iff, Z.eqb_eq in Hs.
  assert (i = 0%nat) as -> by lia.
  assert (H0 : Pgd.experiments !! 0%nat = Some c0) by (vm_compute; reflexivity).
  rewrite H0 in Hc. injection Hc as <-.
  assert (Hp : Pgd.checkpoint_file c0 = "dm_torch/mnist-small-0.03.pth")
    by (vm_compute; reflexivity).
  rewrite Hp. discriminate.
Defined.

Lemma experiment_directories_distinct_witness :
  Experiment.grid !! 7%nat = Some (experiment_at 7) ∧ 7%nat = 7%nat.
Proof.
  assert (H7 : Experiment.grid !! 7%nat = Some (experiment_at 7))
    by (vm_compute; reflexivity).
  split; [exact H7|].
  exact (experiment_directories_distinct 7 7 _ _ H7 H7 eq_refl).
Defined.

Lemma pgd_reads_what_experiment_writes_witness :
  c3 ∈ Pgd.experiments ∧
  ∃ c', c' ∈ Experiment.grid ∧
        Pgd.checkpoint_file c3 = Experiment.directory c' +:+ "/checkpoint.pth".
Proof.
  assert (Hin : c3 ∈ Pgd.experiments).
  { apply (list_elem_of_lookup_2 _ 3%nat). vm_compute. reflexivity. }
  split; [exact Hin|].
  destruct (pgd_reads_what_experiment_writes c3 Hin) as [Htrained _].
  destruct (Htrained eq_refl) as (c' & Hc' & Hpath & _).
  exists c'. split; [exact Hc'|exact Hpath].
Defined.

Lemma pgd_effects_in_order_witness :
  Pgd.experiments !! 0%nat = Some c0 ∧
  ∃ saved,
    Pgd.pgd full_disk_env true (Some 0%Z) VNone (VInt 1) VNone toy_world =
      (Raise (Raised "No space left on device"),
       {| fs := {[ "dm_torch/mnist-small-0.03.pth" := Garbage "" ]};
          trace := Stdout (Pgd.line 0 c0) ::
                   Pgd.evaluation_trace full_disk_env c0 VNone (VInt 1) VNone
                     (VDict ∅) saved |}).
Proof.
  assert (H0 : Pgd.experiments !! 0%nat = Some c0) by (vm_compute; reflexivity).
  split; [exact H0|].
  destruct (pgd_effects_in_order full_disk_env 0 c0 VNone (VInt 1) VNone
              toy_world H0) as (_ & Hmodel).
  destruct (Hmodel [] eq_refl) as (_ & Hfit).
  destruct (Hfit [] eq_refl) as (_ & Hload).
  destruct (Hload (VDict {[ "state_dict" := VDict ∅ ]}) eq_refl)
    as (_ & Hkey).
  destruct (Hkey (VDict ∅) eq_refl) as (_ & Hstate).
  destruct (Hstate [VDict ∅] eq_refl) as (_ & Hattack).
  destruct (Hattack (toy_results
              (Pgd.attack_args full_disk_env "MNIST" 0.1 VNone (VInt 1) VNone))
              eq_refl) as (_ & Hsave).
  eexists. change (Some 0%Z) with (Some (Z.of_nat 0)).
  rewrite (Hsave _ eq_refl). vm_compute. reflexivity.
Defined.

Section Runs.
Context (E : env).

Lemma runs_accumulate_from (subset restarts seed : pyval) (p : string)
    (idxs : list nat) :
  (∀ i, i ∈ idxs →
        ∃ c, Pgd.experiments !! i = Some c ∧ Pgd.checkpoint_file c = p) →
  ∀ w w' d old,
    for_each idxs
      (λ i, Pgd.pgd E true (Some (Z.of_nat i)) subset restarts seed) w
      = (Ok tt, w') →
    fs w !! p = Some (Pickle (VDict d)) →
    d !! "PGD" = Some (VList old) →
    ∃ recs,
      Forall2 (record_of_run seed subset restarts) idxs recs ∧
      fs w' = <[p := Pickle (VDict (<["PGD" := VList (old ++ recs)]> d))]>
                (fs w).
Proof.
  induction idxs as [|i idxs IH]; intros Hp w w' d old; simpl.
  - intros [= <-] Hl Hold. exists []. split; [constructor|].
    by rewrite app_nil_r, (insert_id d), insert_id.
  - unfold bind.
    destruct (Pgd.pgd E true (Some (Z.of_nat i)) subset restarts seed w)
      as [[[]|e] w1] eqn:Hrun; [|done].
    intros Hrest Hl Hold.
    destruct (Hp i) as (c & Hc & Hpath); [by left|].
    destruct (pgd_run_ok E i c subset restarts seed w w1 Hc Hrun)
      as (d0 & sd & res & old0 & n & Hl0 & _ & _ & Ho & Hw1).
    rewrite Hpath, Hl in Hl0. injection Hl0 as <-.
    destruct Ho as [[Hn _]|Ho]; [congruence|].
    rewrite Hold in Ho. injection Ho as <-.
    cbv zeta in Hw1. rewrite Hpath in Hw1.
    set (rec := Pgd.record seed subset restarts (Pgd.test_epsilon_of c) res)
      in *.
    destruct (IH (λ j Hj, Hp j (list_elem_of_further _ _ _ Hj)) w1 w'
                (<["PGD" := VList (old ++ [rec])]> d) (old ++ [rec]) Hrest)
      as (recs & Hrecs & Hfs).
    + rewrite Hw1. simpl. apply lookup_insert_eq.
    + apply lookup_insert_eq.
    + exists (rec :: recs). split.
      * constructor; [by exists c, res|done].
      * rewrite Hfs, Hw1. simpl.
        by rewrite !insert_insert_eq, <- app_assoc.
Qed.

(** X15: runs of [pgd] on experiments that share a checkpoint file, one after
    the other and all returning normally, leave under 'PGD' the records
    stored before followed by one record per run, in the order of the runs;
    the other keys of the checkpoint and the other files are as before. *)
Theorem pgd_runs_accumulate (subset restarts seed : pyval) (p : string)
    (i : nat) (idxs : list nat) (w w' : world) (d : gmap string pyval)
    (old : list pyval) :
  (∀ j, j ∈ i :: idxs →
        ∃ c, Pgd.experiments !! j = Some c ∧ Pgd.checkpoint_file c = p) →
  for_each (i :: idxs)
    (λ j, Pgd.pgd E true (Some (Z.of_nat j)) subset restarts seed) w
    = (Ok tt, w') →
  fs w !! p = Some (Pickle (VDict d)) →
  Pgd.stored d old →
  ∃ recs,
    Forall2 (record_of_run seed subset restarts) (i :: idxs) recs ∧
    fs w' = <[p := Pickle (VDict (<["PGD" := VList (old ++ recs)]> d))]>
              (fs w).
Proof.
  intros Hp Hruns Hl Hs. simpl in Hruns. unfold bind in Hruns.
  destruct (Pgd.pgd E true (Some (Z.of_nat i)) subset restarts seed w)
    as [[[]|e] w1] eqn:Hrun; [|done].
  destruct (Hp i) as (c & Hc & Hpath); [by left|].
  destruct (pgd_run_ok E i c subset restarts seed w w1 Hc Hrun)
    as (d0 & sd & res & old0 & n & Hl0 & _ & _ & Ho & Hw1).
  rewrite Hpath, Hl in Hl0. injection Hl0 as <-.
  assert (old0 = old) as ->.
  { destruct Ho as [[Hn ->]|Ho], Hs as [[Hn' ->]|Hs]; congruence. }
  cbv zeta in Hw1. rewrite Hpath in Hw1.
  set (rec := Pgd.record seed subset restarts (Pgd.test_epsilon_of c) res)
    in *.
  destruct (runs_accumulate_from subset restarts seed p idxs
              (λ j Hj, Hp j (list_elem_of_further _ _ _ Hj)) w1 w'
              (<["PGD" := VList (old ++ [rec])]> d) (old ++ [rec]) Hruns)
    as (recs & Hrecs & Hfs).
  - rewrite Hw1. simpl. apply lookup_insert_eq.
  - apply lookup_insert_eq.
  - exists (rec :: recs). split.
    + constructor; [by exists c, res|done].
    + rewrite Hfs, Hw1. simpl.
      by rewrite !insert_insert_eq, <- app_assoc.
Qed.

End Runs.

Lemma pgd_runs_accumulate_witness :
  ∃ recs,
    Forall2 (record_of_run VNone VNone (VInt 1)) [0; 1; 2]%nat recs ∧
    fs (for_each [0; 1; 2]%nat
          (λ j, Pgd.pgd toy_env true (Some (Z.of_nat j)) VNone (VInt 1) VNone)
          toy_world).2 =
      <["dm_torch/mnist-small-0.03.pth" :=
          Pickle (VDict (<["PGD" := VList recs]>
                           {[ "state_dict" := VDict ∅ ]}))]> (fs toy_world).
Proof.
  assert (Hp : ∀ j, j ∈ [0; 1; 2]%nat →
    ∃ c, Pgd.experiments !! j = Some c
         ∧ Pgd.checkpoint_file c = "dm_torch/mnist-small-0.03.pth").
  { intros j Hj.
    repeat (apply elem_of_cons in Hj as [->|Hj]);
      [exists c0|exists c1
      |exists ("MNIST", 0.03, "small", Int 0, 0.3)%float
      |by apply elem_of_nil in Hj];
      (split; vm_compute; reflexivity). }
  assert (Hruns : for_each [0; 1; 2]%nat
    (λ j, Pgd.pgd toy_env true (Some (Z.of_nat j)) VNone (VInt 1) VNone)
    toy_world = (Ok tt, (for_each [0; 1; 2]%nat
      (λ j, Pgd.pgd toy_env true (Some (Z.of_nat j)) VNone (VInt 1) VNone)
      toy_world).2)) by (vm_compute; reflexivity).
  assert (Hl : fs toy_world !! "dm_torch/mnist-small-0.03.pth"
               = Some (Pickle (VDict {[ "state_dict" := VDict ∅ ]})))
    by apply lookup_singleton_eq.
  assert (Hs : Pgd.stored ({[ "state_dict" := VDict ∅ ]} : gmap string pyval)
                 []).
  { left. split; [|reflexivity]. apply lookup_singleton_ne. discriminate. }
  exact (pgd_runs_accumulate toy_env VNone (VInt 1) VNone _ 0 [1; 2]%nat
           toy_world _ _ [] Hp Hruns Hl Hs).
Defined.
